(** * JSON <-> spreadsheet shape mapping: json_to_excel.py and excel_to_json.py

    A shallow embedding of the mapping logic of the two converters and the
    properties stated for it.  Python values are an inductive type, a
    [dict] is an association list in insertion order, the set of used sheet
    names is a [gset], exceptions are an error monad, and the unbounded
    [while True] of [uniq_sheet_name] is a search with explicit fuel that is
    shown to be always sufficient.  The workbook that lies between an export
    and an import is not modelled cell by cell: a round trip takes the frame
    that the spreadsheet reader returns as a parameter, and states what it
    needs of it. *)

From Stdlib Require Import ZArith NArith Lia Ascii String SpecFloat.
From stdpp Require Import base option list gmap.

Set Warnings "-register-all".
Local Open Scope Z_scope.

(** ** Python strings *)

(** A Python [str] is a sequence of Unicode code points. *)
Definition pystr := list N.

(** Literals of the source, written as Rocq strings. *)
Definition py (s : string) : pystr := map N_of_ascii (list_ascii_of_string s).

(** [len(s)] as a Python integer. *)
Definition len {A} (s : list A) : Z := Z.of_nat (length s).

(** [s[:n]].  A negative stop counts from the end of the string. *)
Definition slice_to {A} (n : Z) (s : list A) : list A :=
  if 0 <=? n then take (Z.to_nat n) s
  else take (length s - Z.to_nat (- n)) s.

(** Decimal digits of a non-negative integer, most significant first; the
    digit characters are the code points 48 to 57. *)
Fixpoint digits (fuel : nat) (n : Z) : pystr :=
  match fuel with
  | O => []
  | S fuel' =>
      (if n <? 10 then [] else digits fuel' (n / 10))
        ++ [Z.to_N (48 + n mod 10)]
  end.

(** [str(i)] for an [int], with a leading minus sign (code point 45) for a
    negative one: the binary size of [i] bounds the number of its decimal
    digits, so it is enough fuel. *)
Definition str_int (i : Z) : pystr :=
  if i <? 0 then 45%N :: digits (S (Z.to_nat (Z.log2 (- i)))) (- i)
  else digits (S (Z.to_nat (Z.log2 i))) i.

(** ** Python values *)

(** The values the two scripts handle: what [json.load] produces, and the
    NumPy scalars and arrays a table cell can hold ([np.integer],
    [np.floating], [np.ndarray], [np.bool_]).  Floats are IEEE binary64
    data.  An [ndarray] is represented by the list its [tolist()]
    returns. *)
Inductive pyval : Type :=
  | PNone
  | PBool (b : bool)
  | PInt (z : Z)
  | PFloat (f : spec_float)
  | PStr (s : pystr)
  | PList (l : list pyval)
  | PDict (d : list (pystr * pyval))
  | NpInt (z : Z)
  | NpFloat (f : spec_float)
  | NpArray (l : list pyval)
  | NpBool (b : bool).

(** A [dict] with [str] keys: entries in insertion order, keys distinct. *)
Abbreviation dict V := (list (pystr * V)).

Definition dict_get {V} (k : pystr) (d : dict V) : option V :=
  snd <$> find (λ kv, bool_decide (kv.1 = k)) d.

(** [d[k] = v]: an existing key keeps its position and takes the new value,
    a new key goes last. *)
Fixpoint dict_set {V} (k : pystr) (v : V) (d : dict V) : dict V :=
  match d with
  | [] => [(k, v)]
  | (k', v') :: d' =>
      if decide (k' = k) then (k', v) :: d' else (k', v') :: dict_set k v d'
  end.

(** [dict(items)]. *)
Definition dict_of_items {V} (items : list (pystr * V)) : dict V :=
  fold_left (λ d kv, dict_set kv.1 kv.2 d) items [].

Definition is_dict (v : pyval) : bool :=
  match v with PDict _ => true | _ => false end.

Definition is_list (v : pyval) : bool :=
  match v with PList _ => true | _ => false end.

(** ** json_to_excel.py *)

(** [flatten_dict(d, parent_key, sep)], on the value [PDict d].  The test
    [if parent_key] is a test for the empty string. *)
Fixpoint flatten_value (v : pyval) (parent_key sep : pystr) {struct v}
  : dict pyval :=
  match v with
  | PDict d =>
      dict_of_items
        ((fix items (l : list (pystr * pyval)) : list (pystr * pyval) :=
            match l with
            | [] => []
            | (k, x) :: l' =>
                let new_key :=
                  match parent_key with
                  | [] => k
                  | _ => parent_key ++ sep ++ k
                  end in
                (match x with
                 | PDict _ => flatten_value x new_key sep
                 | _ => [(new_key, x)]
                 end) ++ items l'
            end) d)
  | _ => []
  end.

Definition flatten_dict (d : dict pyval) (parent_key sep : pystr)
  : dict pyval :=
  flatten_value (PDict d) parent_key sep.

(** [make_sheet_name]; 95 is the code point of the underscore. *)
Definition invalid : list N := py "[]:*?/\".

Definition make_sheet_name (name : pystr) : pystr :=
  let safe := map (λ ch, if decide (ch ∈ invalid) then 95%N else ch) name in
  take 31 (match safe with [] => py "Sheet" | _ => safe end).

(** [uniq_sheet_name].  The candidate tried at counter [i]: the name cut
    to make room for the suffix, then the suffix, an underscore and the
    counter. *)
Definition candidate (name : pystr) (i : Z) : pystr :=
  let suffix := 95%N :: str_int i in
  slice_to (31 - len suffix) name ++ suffix.

(** The [while True] loop, started at counter [i], with [fuel] iterations. *)
Fixpoint uniq_loop (fuel : nat) (name : pystr) (used : gset pystr) (i : Z)
  : option pystr :=
  match fuel with
  | O => None
  | S fuel' =>
      if decide (candidate name i ∈ used)
      then uniq_loop fuel' name used (i + 1)
      else Some (candidate name i)
  end.

(** Returns the chosen name and the updated set ([used.add]).  The loop
    gets one more iteration than there are used names. *)
Definition uniq_sheet_name (base : pystr) (used : gset pystr)
  : option (pystr * gset pystr) :=
  let name := make_sheet_name base in
  if decide (name ∈ used) then
    c ← uniq_loop (S (size used)) name used 2;
    Some (c, {[c]} ∪ used)
  else Some (name, {[name]} ∪ used).

(** ** Tables (the pandas interface the scripts use) *)

(** The constructors below follow pandas 2: [pd.DataFrame] on a mapping of
    columns and on a list of records, and the path of [pd.json_normalize]
    taken when only the separator is given. *)

(** A [DataFrame]: column labels, and the rows of cell values.  For a frame
    that [build_frames] makes, a cell is the value its column stores, as a
    Python object.  For a frame that [read_excel_to_json] reads, a cell is
    what the row iterator hands out: a Python object, or a NumPy scalar
    ([NpInt], [NpFloat], [NpBool]) when all columns of the frame have the
    same NumPy type. *)
Record DataFrame := { columns : list pystr; rows : list (list pyval) }.

(** The missing-value marker. *)
Definition NaN : pyval := PFloat S754_nan.

Definition is_nan (f : spec_float) : bool :=
  match f with S754_nan => true | _ => false end.

(** [float(z)]: the binary64 number nearest to the integer. *)
Definition float_of_int (z : Z) : spec_float :=
  binary_normalize 53 1024 z 0 false.

Definition numeric_or_none (v : pyval) : bool :=
  match v with PInt _ | PFloat _ | PNone => true | _ => false end.

Definition is_int (v : pyval) : bool :=
  match v with PInt _ => true | _ => false end.

Definition is_float (v : pyval) : bool :=
  match v with PFloat _ => true | _ => false end.

Definition int_below (bound : Z) (v : pyval) : bool :=
  match v with PInt z => z <? bound | _ => false end.

Definition int_from (bound : Z) (v : pyval) : bool :=
  match v with PInt z => bound <=? z | _ => false end.

(** The values that come before the first [None].  The constructor goes
    through a column in order and checks the range of the integers it meets
    only as long as it has met no [None]. *)
Fixpoint before_none (vals : list pyval) : list pyval :=
  match vals with
  | [] => []
  | PNone :: _ => []
  | v :: vals => v :: before_none vals
  end.

(** A checked integer that a 64-bit column cannot hold next to the others:
    one outside the range from -2^63 to 2^64 - 1, or one from 2^63 on when
    a negative one is checked too. *)
Definition outside_64_bits (vals : list pyval) : bool :=
  let checked := before_none vals in
  existsb (int_below (- 2 ^ 63)) checked
  || existsb (int_from (2 ^ 64)) checked
  || (existsb (int_from (2 ^ 63)) checked && existsb (int_below 0) checked).

(** A column is stored as binary64 when it holds only numbers and [None],
    at least one number, not integers alone, and no checked integer that
    is outside 64 bits. *)
Definition stored_as_float (vals : list pyval) : bool :=
  forallb numeric_or_none vals
  && existsb (λ v, is_int v || is_float v) vals
  && negb (forallb is_int vals)
  && negb (outside_64_bits vals).

Definition to_float (v : pyval) : pyval :=
  match v with
  | PInt z => PFloat (float_of_int z)
  | PNone => NaN
  | _ => v
  end.

(** The values of a column after the constructor has chosen its type:
    integers next to a float or a missing value become floats and [None]
    becomes NaN; every other column keeps its values, and so does a column
    with a checked integer outside 64 bits, which is kept as Python
    objects.  The integers are taken within the range of binary64: the
    constructor converts each integer it inspects to a float, which has no
    result beyond that range. *)
Definition column_typing (vals : list pyval) : list pyval :=
  if stored_as_float vals then map to_float vals else vals.

Definition frame_of_columns (names : list pystr) (cols : list (list pyval))
    (n : nat) : DataFrame :=
  {| columns := names;
     rows := map (λ i, map (λ c, default NaN (c !! i)) cols) (seq 0 n) |}.

(** [pd.DataFrame()]. *)
Definition DataFrame_empty : DataFrame := {| columns := []; rows := [] |}.

(** [pd.DataFrame({name: lst})]. *)
Definition DataFrame_column (name : pystr) (lst : list pyval) : DataFrame :=
  frame_of_columns [name] [column_typing lst] (length lst).

(** Column labels of a list of records: the keys in order of first
    appearance. *)
Definition record_columns (records : list (dict pyval)) : list pystr :=
  fold_left
    (λ cols r,
       fold_left (λ cols k, if decide (k ∈ cols) then cols else cols ++ [k])
                 (map fst r) cols)
    records [].

(** [pd.DataFrame(records)]: one row per record, a key that a record lacks
    gives a missing cell. *)
Definition DataFrame_records (records : list (dict pyval)) : DataFrame :=
  let names := record_columns records in
  frame_of_columns names
    (map (λ c, column_typing (map (λ r, default NaN (dict_get c r)) records))
         names)
    (length records).

(** [str.removeprefix]. *)
Definition removeprefix (p s : pystr) : pystr :=
  if decide (take (length p) s = p) then drop (length p) s else s.

(** pandas' own flattening ([_normalise_json]): every leaf of a nested
    mapping under the keys of its path joined by the separator. *)
Fixpoint normalise_json (data : pyval) (key_string sep : pystr)
    (normalized : dict pyval) {struct data} : dict pyval :=
  match data with
  | PDict d =>
      (fix entries (l : list (pystr * pyval)) (acc : dict pyval) : dict pyval :=
         match l with
         | [] => acc
         | (key, value) :: l' =>
             let new_key := key_string ++ sep ++ key in
             let new_key :=
               match key_string with
               | [] => removeprefix sep new_key
               | _ => new_key
               end in
             entries l' (normalise_json value new_key sep acc)
         end) d normalized
  | _ => dict_set key_string data normalized
  end.

(** One record ([_normalise_json_ordered]): the entries that are not
    mappings come first, then the leaves of the nested mappings. *)
Definition normalise_json_ordered (sep : pystr) (data : dict pyval)
  : dict pyval :=
  let top_dict := filter (λ kv, is_dict kv.2 = false) data in
  let nested_dict :=
    normalise_json (PDict (filter (λ kv, is_dict kv.2 = true) data)) [] sep []
  in
  fold_left (λ d kv, dict_set kv.1 kv.2 d) nested_dict top_dict.

(** [pd.json_normalize(data, sep=sep)] on a list of records; a single
    mapping is the one-element list of it. *)
Definition json_normalize (data : list (dict pyval)) (sep : pystr)
  : DataFrame :=
  match data with
  | [] => DataFrame_empty
  | _ => DataFrame_records (map (normalise_json_ordered sep) data)
  end.

(** [is_list_of_dicts]. *)
Definition is_list_of_dicts (val : pyval) : bool :=
  match val with PList l => forallb is_dict l | _ => false end.

(** The mappings among the elements of a list. *)
Definition as_records (lst : list pyval) : list (dict pyval) :=
  omap (λ x, match x with PDict d => Some d | _ => None end) lst.

(** [normalize_list] of [build_frames]. *)
Definition normalize_list (sep : pystr) (lst : list pyval) : DataFrame :=
  if is_list_of_dicts (PList lst) then json_normalize (as_records lst) sep
  else DataFrame_column (py "value") lst.

(** ** build_frames *)

(** The state of one export: the ordered mapping of frames, the set of
    used names, and the scalars collected so far. *)
Record export_state := {
  frames : dict DataFrame;
  used_names : gset pystr;
  scalars : dict pyval
}.

(** [frames[uniq_sheet_name(base, used_names)] = df]. *)
Definition add_frame (base : pystr) (df : DataFrame) (st : export_state)
  : option export_state :=
  '(name, used) ← uniq_sheet_name base (used_names st);
  Some {| frames := dict_set name df (frames st);
          used_names := used;
          scalars := scalars st |}.

(** The loop over [obj.items()] of the horizontal layout. *)
Fixpoint horizontal_loop (sep : pystr) (items : list (pystr * pyval))
    (st : export_state) : option export_state :=
  match items with
  | [] => Some st
  | (k, v) :: items' =>
      match v with
      | PList lst =>
          st' ← add_frame k (normalize_list sep lst) st;
          horizontal_loop sep items' st'
      | PDict dv =>
          st' ← add_frame k (json_normalize [dv] sep) st;
          horizontal_loop sep items' st'
      | _ =>
          horizontal_loop sep items'
            {| frames := frames st;
               used_names := used_names st;
               scalars := dict_set k v (scalars st) |}
      end
  end.

Definition initial_state : export_state :=
  {| frames := []; used_names := ∅; scalars := [] |}.

Definition Key : pystr := py "Key".
Definition Value : pystr := py "Value".

(** [build_frames(obj, root_name, sep, vertical)]; [None] only if a name
    search ran out of fuel. *)
Definition build_frames (obj : pyval) (root_name sep : pystr)
    (vertical : bool) : option (dict DataFrame) :=
  match obj with
  | PList lst =>
      frames <$> add_frame root_name (normalize_list sep lst) initial_state
  | PDict d =>
      let flattened := flatten_dict d [] sep in
      if vertical then
        let df :=
          DataFrame_records
            (map (λ kv, [(Key, PStr kv.1); (Value, kv.2)]) flattened) in
        frames <$> add_frame root_name df initial_state
      else
        st ← horizontal_loop sep d initial_state;
        st ← (match scalars st with
              | [] => Some st
              | _ => add_frame root_name (json_normalize [scalars st] sep) st
              end);
        st ← (match frames st with
              | [] => add_frame root_name DataFrame_empty st
              | _ => Some st
              end);
        Some (frames st)
  | _ =>
      if vertical then
        frames <$> add_frame root_name
          (frame_of_columns [Key; Value]
             [column_typing [PStr (py "value")]; column_typing [obj]] 1)
          initial_state
      else
        frames <$> add_frame root_name (DataFrame_column (py "value") [obj])
          initial_state
  end.

(** ** Exceptions *)

Inductive exn : Type :=
  | ValueError_truth_value
      (** the truth value of an array with more than one element *)
  | ValueError_columns
      (** "Excel file must have 'Key' and 'Value' columns" *)
  | ValueError_line (i : Z)
      (** "Invalid JSON on line i: ..." *)
  | JSONDecodeError
  | OtherError (what : pystr)
      (** any exception that is not a [JSONDecodeError], by its text *).

Inductive result (A : Type) : Type :=
  | Ok (a : A)
  | Raise (e : exn).
Arguments Ok {A} a.
Arguments Raise {A} e.

#[global] Instance result_ret : MRet result := λ A a, Ok a.
#[global] Instance result_bind : MBind result :=
  λ A B f m, match m with Ok a => f a | Raise e => Raise e end.
#[global] Instance result_fmap : FMap result :=
  λ A B f m, match m with Ok a => Ok (f a) | Raise e => Raise e end.

(** ** excel_to_json.py *)

(** [if pd.isna(value)]: the truth value of what [pd.isna] returns.  On a
    list or an array [pd.isna] works element by element, and the truth
    value of the resulting array is defined only when it has exactly one
    element. *)
Fixpoint isna_truth (value : pyval) : result bool :=
  match value with
  | PNone => Ok true
  | PFloat f | NpFloat f => Ok (is_nan f)
  | PList l | NpArray l =>
      match l with
      | [x] => isna_truth x
      | _ => Raise ValueError_truth_value
      end
  | _ => Ok false
  end.

(** The body of the [try] for one cell. *)
Definition coerce_steps (value : pyval) : result pyval :=
  na ← isna_truth value;
  if na : bool then Ok PNone
  else match value with
       | NpInt z => Ok (PInt z)          (* value.item() *)
       | NpFloat f => Ok (PFloat f)      (* value.item() *)
       | NpArray l => Ok (PList l)       (* value.tolist() *)
       | _ => Ok value
       end.

Section Importer.

(** [str(x)] for the objects whose rendering is not spelled out below
    (floats, lists, mappings, arrays). *)
Variable repr_other : pyval → pystr.

Definition py_str (x : pyval) : pystr :=
  match x with
  | PStr s => s
  | PNone => py "None"
  | PBool true | NpBool true => py "True"
  | PBool false | NpBool false => py "False"
  | PInt z | NpInt z => str_int z
  | _ => repr_other x
  end.

(** The [try ... except] around one cell: what is stored under the key. *)
Definition coerce_cell (value : pyval) : pyval :=
  match coerce_steps value with
  | Ok v => v
  | Raise _ =>
      match value with
      | PNone => PNone
      | _ => PStr (py_str value)
      end
  end.

(** [row[label]]; rows are as long as the list of labels, a cell beyond
    the end of a shorter row counts as missing. *)
Definition row_get (labels : list pystr) (row : list pyval)
    (label : pystr) : pyval :=
  default NaN (i ← list_find (λ c, c = label) labels; row !! i.1).

(** [read_excel_to_json], from the frame that [pd.read_excel] returned. *)
Definition read_excel_to_json (df : DataFrame) : result (dict pyval) :=
  if decide (Key ∈ columns df ∧ Value ∈ columns df) then
    Ok (fold_left
          (λ result row,
             let key := py_str (row_get (columns df) row Key) in
             let value := row_get (columns df) row Value in
             dict_set key (coerce_cell value) result)
          (rows df) [])
  else Raise ValueError_columns.

End Importer.

(** ** load_json *)

(** What [json.loads] does with a text: it returns a value, raises
    [JSONDecodeError], or raises another exception (the integer-digits
    limit, a recursion error). *)
Inductive loads_outcome : Type :=
  | Loaded (v : pyval)
  | Decode_error
  | Other_error (what : pystr).

Section LoadJson.

(** [json.loads] and [str.strip]. *)
Variable json_loads : pystr → loads_outcome.
Variable strip : pystr → pystr.

(** The loop over [enumerate(f, start=1)]: only [JSONDecodeError] is caught
    and turned into the line-numbered error, any other exception of
    [json.loads] goes through as it is. *)
Fixpoint ndjson_loop (lines : list pystr) (i : Z) (records : list pyval)
  : result (list pyval) :=
  match lines with
  | [] => Ok records
  | line :: rest =>
      match strip line with
      | [] => ndjson_loop rest (i + 1) records
      | line' =>
          match json_loads line' with
          | Loaded v => ndjson_loop rest (i + 1) (records ++ [v])
          | Decode_error => Raise (ValueError_line i)
          | Other_error what => Raise (OtherError what)
          end
      end
  end.

(** [load_json], on the lines of the file. *)
Definition load_json (lines : list pystr) (ndjson : bool) : result pyval :=
  if ndjson then PList <$> ndjson_loop lines 1 []
  else match json_loads (concat lines) with
       | Loaded v => Ok v
       | Decode_error => Raise JSONDecodeError
       | Other_error what => Raise (OtherError what)
       end.

End LoadJson.

(** ** Reference definitions for the stated properties *)

(** Each key once, at the place of its first occurrence. *)
Fixpoint first_occurrences (keys : list pystr) : list pystr :=
  match keys with
  | [] => []
  | k :: keys' => k :: filter (λ k', k' ≠ k) (first_occurrences keys')
  end.

(** The value paired with the last occurrence of a key. *)
Definition last_value {V} (k : pystr) (cells : list (pystr * V)) : option V :=
  snd <$> last (filter (λ kv, kv.1 = k) cells).

(** The key and the coerced value of one row of a Key/Value table. *)
Definition row_binding (repr_other : pyval → pystr) (df : DataFrame)
    (row : list pyval) : pystr * pyval :=
  (py_str repr_other (row_get (columns df) row Key),
   coerce_cell repr_other (row_get (columns df) row Value)).

(** What [flatten_dict] appends to [items] for one entry. *)
Definition flatten_entry (parent_key sep : pystr) (kv : pystr * pyval)
  : list (pystr * pyval) :=
  let new_key :=
    match parent_key with [] => kv.1 | _ => parent_key ++ sep ++ kv.1 end in
  match kv.2 with
  | PDict _ => flatten_value kv.2 new_key sep
  | _ => [(new_key, kv.2)]
  end.

(** A float whose value is an integer. *)
Definition float_integral (f : spec_float) : bool :=
  match f with
  | S754_zero _ => true
  | S754_finite _ m e =>
      if 0 <=? e then true else Z.pos m mod 2 ^ (- e) =? 0
  | _ => false
  end.

(** Numeric cells, by the kind of value they hold. *)
Definition integral_valued (cell : pyval) : bool :=
  match cell with
  | PInt _ | NpInt _ => true
  | PFloat f | NpFloat f => float_integral f
  | _ => false
  end.

Definition fractional_valued (cell : pyval) : bool :=
  match cell with
  | PFloat (S754_finite s m e) | NpFloat (S754_finite s m e) =>
      negb (float_integral (S754_finite s m e))
  | _ => false
  end.

Definition missing_cell (cell : pyval) : bool :=
  match cell with
  | PNone => true
  | PFloat f | NpFloat f => is_nan f
  | _ => false
  end.

(** The numeric convention as the specification words it: the outcome
    depends on whether the value has a fractional part. *)
Definition numeric_convention_by_value : Prop :=
  ∀ (repr_other : pyval → pystr) (cell : pyval),
    (integral_valued cell = true →
       is_int (coerce_cell repr_other cell) = true)
    ∧ (fractional_valued cell = true →
       is_float (coerce_cell repr_other cell) = true)
    ∧ (missing_cell cell = true → coerce_cell repr_other cell = PNone).

(** The fallback of the [except] branch. *)
Definition stringify_fallback (repr_other : pyval → pystr) (value : pyval)
  : pyval :=
  match value with
  | PNone => PNone
  | _ => PStr (py_str repr_other value)
  end.

(** A line of a newline-delimited file that the loader accepts: blank
    after stripping, or parsed by [json.loads]. *)
Definition line_accepted (json_loads : pystr → loads_outcome)
    (strip : pystr → pystr) (line : pystr) : Prop :=
  strip line = [] ∨ ∃ v, json_loads (strip line) = Loaded v.

(** A malformed line: not blank, and [json.loads] raises
    [JSONDecodeError] on it. *)
Definition line_malformed (json_loads : pystr → loads_outcome)
    (strip : pystr → pystr) (line : pystr) : Prop :=
  strip line ≠ [] ∧ json_loads (strip line) = Decode_error.

(** Sample collaborators for concrete runs: a renderer that is never
    consulted on text, a parser that knows the literal [1], fails on a
    text of the letter [x] other than by a decode error and rejects
    everything else, and a [strip] for lines without surrounding blanks. *)
Definition sample_repr : pyval → pystr := λ _, py "<object>".
Definition sample_loads : pystr → loads_outcome :=
  λ s, if decide (s = py "1") then Loaded (PInt 1)
       else if decide (s = py "x") then Other_error (py "limit")
       else Decode_error.
Definition sample_strip : pystr → pystr := λ s, s.

(** JSON scalars and null; NaN is not a JSON number. *)
Definition json_scalar (v : pyval) : bool :=
  match v with
  | PNone | PBool _ | PInt _ | PStr _ => true
  | PFloat f => negb (is_nan f)
  | _ => false
  end.

(** The column mixes an integer with a float or a null and nothing else,
    so that the integer is stored as a float. *)
Definition int_stored_as_float (vals : list pyval) : bool :=
  stored_as_float vals && existsb is_int vals.

(** An integer within the signed 64-bit range; any other value counts. *)
Definition fits_int64 (v : pyval) : bool :=
  match v with
  | PInt z => (- 2 ^ 63 <=? z) && (z <? 2 ^ 63)
  | _ => true
  end.

(** The largest binary64 number. *)
Definition float_max : Z := (2 ^ 53 - 1) * 2 ^ 971.

(** An integer that converts to a float; any other value counts. *)
Definition converts_to_float (v : pyval) : bool :=
  match v with
  | PInt z => Z.abs z <=? float_max
  | _ => true
  end.

(** Two cells between which the import makes no difference: the same
    value, or two missing cells ([None] written, NaN read). *)
Definition same_cell (written read : pyval) : Prop :=
  read = written ∨ (missing_cell written = true ∧ missing_cell read = true).

(** The frame that [pd.read_excel] returns has the labels and, row by row,
    the cells of the frame that [write_excel] wrote to the sheet. *)
Definition read_back_as_written (written read : DataFrame) : Prop :=
  columns read = columns written
  ∧ Forall2 (Forall2 same_cell) (rows written) (rows read).

(** The table of the vertical layout for the flattened pairs: the key as
    text next to the value as the Value column stores it. *)
Definition vertical_table (flattened : dict pyval) : DataFrame :=
  {| columns := [Key; Value];
     rows := zip_with (λ k v, [PStr k; v])
               (map fst flattened) (column_typing (map snd flattened)) |}.

(** Export in the vertical layout, write the one table to a sheet, read the
    sheet and import it.  [read_sheet] stands for [write_excel] followed by
    the [pd.read_excel] of [read_excel_to_json]: the frame read from the
    sheet that was written from the given frame. *)
Definition vertical_round_trip (repr_other : pyval → pystr)
    (read_sheet : DataFrame → DataFrame)
    (root_name sep : pystr) (m : dict pyval) : option (result (dict pyval)) :=
  tables ← build_frames (PDict m) root_name sep true;
  match tables with
  | [(_, df)] => Some (read_excel_to_json repr_other (read_sheet df))
  | _ => None
  end.

(** The round-trip property as the specification words it, for every flat
    mapping, even with a sheet that gives every table back as written. *)
Definition vertical_round_trip_for_all : Prop :=
  ∀ (repr_other : pyval → pystr) (read_sheet : DataFrame → DataFrame)
    (root_name sep : pystr) (m : dict pyval),
    (∀ df, read_back_as_written df (read_sheet df)) →
    NoDup (map fst m) →
    Forall (λ kv, json_scalar kv.2 = true) m →
    vertical_round_trip repr_other read_sheet root_name sep m = Some (Ok m).

(** A sample sheet: every cell comes back as written, a missing one as
    NaN. *)
Definition sample_read_sheet (df : DataFrame) : DataFrame :=
  {| columns := columns df;
     rows := map (map (λ c, if missing_cell c then NaN else c)) (rows df) |}.

(** The number a string of decimal digits denotes. *)
Definition digits_value (s : pystr) : Z :=
  fold_left (λ a c, 10 * a + (Z.of_N c - 48)) s 0.

(** The constraints on a sheet name. *)
Definition valid_sheet_name (name : pystr) : Prop :=
  (length name ≤ 31)%nat ∧ name ≠ [] ∧ Forall (λ ch, ch ∉ invalid) name.

(** The table that a sequence or mapping entry of the root gives, with the
    name it asks for (the entry's key); nothing for a scalar entry. *)
Definition entry_table (sep : pystr) (kv : pystr * pyval)
  : option (pystr * DataFrame) :=
  match kv.2 with
  | PList lst => Some (kv.1, normalize_list sep lst)
  | PDict dv => Some (kv.1, json_normalize [dv] sep)
  | _ => None
  end.

Definition is_scalar_entry (kv : pystr * pyval) : bool :=
  negb (is_list kv.2) && negb (is_dict kv.2).

(** The planned output of the horizontal layout, each table with the name
    it asks for: the tables of the sequence and mapping entries in
    iteration order, then the table of the scalar entries if there is any,
    and the empty table for the empty mapping. *)
Definition horizontal_plan (root_name sep : pystr) (d : dict pyval)
  : list (pystr * DataFrame) :=
  omap (entry_table sep) d
  ++ (match dict_of_items (filter (λ kv, is_scalar_entry kv = true) d) with
      | [] => []
      | sc => [(root_name, json_normalize [sc] sep)]
      end)
  ++ (match d with
      | [] => [(root_name, DataFrame_empty)]
      | _ => []
      end).

(** Handing the requested names to the sheet planner one after the other;
    returns the named tables and the final set of used names. *)
Fixpoint assign_names (plan : list (pystr * DataFrame)) (used : gset pystr)
  : option (list (pystr * DataFrame) * gset pystr) :=
  match plan with
  | [] => Some ([], used)
  | (base, df) :: plan' =>
      '(name, used') ← uniq_sheet_name base used;
      '(rest, used'') ← assign_names plan' used';
      Some ((name, df) :: rest, used'')
  end.

(** The number of entries of a mapping root (no other root has more than
    one table). *)
Definition top_level_entries (obj : pyval) : Z :=
  match obj with PDict d => len d | _ => 0 end.

(** The planned output of any export. *)
Definition export_plan (obj : pyval) (root_name sep : pystr)
    (vertical : bool) : list (pystr * DataFrame) :=
  match obj with
  | PList lst => [(root_name, normalize_list sep lst)]
  | PDict d =>
      if vertical then
        [(root_name,
          DataFrame_records
            (map (λ kv, [(Key, PStr kv.1); (Value, kv.2)])
                 (flatten_dict d [] sep)))]
      else horizontal_plan root_name sep d
  | _ =>
      if vertical then
        [(root_name,
          frame_of_columns [Key; Value]
            [column_typing [PStr (py "value")]; column_typing [obj]] 1)]
      else [(root_name, DataFrame_column (py "value") [obj])]
  end.

(** Every key of [frames] has been registered in [used_names]. *)
Definition names_registered (st : export_state) : Prop :=
  ∀ name, name ∈ map fst (frames st) → name ∈ used_names st.

(** ** Column widths (autosize_columns_if_openpyxl) *)

(** [df[col]]: the cells of a column, top to bottom. *)
Definition column_cells (df : DataFrame) (col : pystr) : list pyval :=
  map (λ row, row_get (columns df) row col) (rows df).

(** [df.empty]: no column or no row. *)
Definition frame_empty (df : DataFrame) : bool :=
  match columns df, rows df with
  | [], _ | _, [] => true
  | _, _ => false
  end.

(** [max([x] + rest)]. *)
Definition max_of (x : Z) (rest : list Z) : Z := fold_left Z.max rest x.

(** [autosize_columns_if_openpyxl]: the width assigned to each column, by
    its 1-based index; nothing when openpyxl is missing or the writer has
    no sheet of that name. *)
Definition autosize_columns_if_openpyxl (repr_other : pyval → pystr)
    (openpyxl_installed sheet_found : bool) (df : DataFrame)
  : list (Z * Z) :=
  if negb openpyxl_installed then []
  else if negb sheet_found then []
  else
    imap
      (λ n col,
         let series := map (py_str repr_other) (column_cells df col) in
         let max_len :=
           if negb (frame_empty df) then max_of (len col) (map len series)
           else len col in
         let adjusted := Z.min (max_len + 2) 60 in
         (Z.of_nat n + 1, adjusted))
      (columns df).

(** ** Further reference definitions *)












(** What one line of a newline-delimited file contributes: nothing when it
    is blank, else what [json.loads] makes of it. *)
Definition parse_line (json_loads : pystr → loads_outcome)
    (strip : pystr → pystr) (line : pystr) : option pyval :=
  match strip line with
  | [] => None
  | line' => match json_loads line' with Loaded v => Some v | _ => None end
  end.

(** * Properties *)

Ltac by_evaluation := apply (bool_decide_unpack _); vm_compute; exact I.

(** ** Mappings as association lists *)

Section DictFacts.
Context {V : Type}.
Implicit Types (d : dict V) (k : pystr) (v : V).

Lemma dict_set_fresh k v d :
  k ∉ map fst d → dict_set k v d = d ++ [(k, v)].
Proof.
  induction d as [|[k' v'] d IH]; simpl; [done|].
  intros Hk. apply not_elem_of_cons in Hk as [Hne Hk].
  destruct (decide (k' = k)); [congruence|]. by rewrite IH.
Qed.

Lemma dict_set_keys k v d :
  map fst (dict_set k v d)
  = if decide (k ∈ map fst d) then map fst d else map fst d ++ [k].
Proof.
  induction d as [|[k' v'] d IH]; simpl.
  - destruct (decide (k ∈ [])) as [H|_]; [by apply elem_of_nil in H|done].
  - destruct (decide (k' = k)) as [->|Hne]; simpl.
    + rewrite decide_True; [done|left].
    + rewrite IH. destruct (decide (k ∈ map fst d)) as [Hin|Hin].
      * rewrite decide_True; [done|by right].
      * rewrite decide_False; [done|].
        intros [?|?]%elem_of_cons; congruence.
Qed.

Lemma dict_get_set k k' v d :
  dict_get k' (dict_set k v d)
  = if decide (k = k') then Some v else dict_get k' d.
Proof.
  unfold dict_get. induction d as [|[k0 v0] d IH]; simpl.
  - destruct (decide (k = k')) as [->|Hne].
    + by rewrite bool_decide_eq_true_2.
    + by rewrite bool_decide_eq_false_2.
  - destruct (decide (k0 = k)) as [->|Hne0]; simpl.
    + destruct (decide (k = k')) as [->|Hne].
      * by rewrite !bool_decide_eq_true_2.
      * by rewrite !bool_decide_eq_false_2.
    + destruct (decide (k0 = k')) as [->|Hne1].
      * rewrite bool_decide_eq_true_2 by done.
        rewrite decide_False by congruence. done.
      * rewrite bool_decide_eq_false_2 by done. apply IH.
Qed.

Lemma dict_of_items_snoc (items : list (pystr * V)) k v :
  dict_of_items (items ++ [(k, v)]) = dict_set k v (dict_of_items items).
Proof. unfold dict_of_items. by rewrite fold_left_app. Qed.

(** [dict(items)] of items with distinct keys is the items themselves. *)
Lemma dict_of_items_nodup (items : list (pystr * V)) :
  NoDup (map fst items) → dict_of_items items = items.
Proof.
  induction items as [|[k v] items IH] using rev_ind; [done|].
  rewrite map_app, NoDup_app. simpl. intros (Hnd & Hfresh & _).
  rewrite dict_of_items_snoc, IH by done.
  apply dict_set_fresh. intros Hin. apply (Hfresh k Hin). left.
Qed.
End DictFacts.

Lemma first_occurrences_elem k keys :
  k ∈ first_occurrences keys ↔ k ∈ keys.
Proof.
  induction keys as [|k0 keys IH]; simpl; [done|].
  rewrite !elem_of_cons, list_elem_of_filter, IH.
  destruct (decide (k = k0)) as [->|Hne]; [tauto|]. tauto.
Qed.

Lemma first_occurrences_snoc keys k :
  first_occurrences (keys ++ [k])
  = if decide (k ∈ keys) then first_occurrences keys
    else first_occurrences keys ++ [k].
Proof.
  induction keys as [|k0 keys IH]; simpl.
  - destruct (decide (k ∈ [])) as [H|_]; [by apply elem_of_nil in H|done].
  - rewrite IH. destruct (decide (k = k0)) as [->|Hne].
    + rewrite (decide_True (P := k0 ∈ k0 :: keys)) by left.
      destruct (decide (k0 ∈ keys)); [done|].
      rewrite filter_app, filter_cons_False, filter_nil by (intros H; by apply H).
      by rewrite app_nil_r.
    + destruct (decide (k ∈ keys)) as [Hin|Hin].
      * rewrite decide_True by (by right). done.
      * rewrite decide_False by (intros [?|?]%elem_of_cons; congruence).
        by rewrite filter_app, filter_cons_True, filter_nil.
Qed.

Lemma filter_all {A} (P : A → Prop) `{!∀ x, Decision (P x)} (l : list A) :
  Forall P l → filter P l = l.
Proof.
  induction 1 as [|x l Hx _ IH]; [done|].
  by rewrite filter_cons_True, IH.
Qed.

Lemma first_occurrences_nodup keys :
  NoDup keys → first_occurrences keys = keys.
Proof.
  induction 1 as [|k keys Hk Hnd IH]; simpl; [done|].
  rewrite IH. f_equal. apply filter_all, Forall_forall.
  intros k' Hk' ->. done.
Qed.

Lemma last_value_snoc {V} k (cells : list (pystr * V)) k0 v0 :
  last_value k (cells ++ [(k0, v0)])
  = if decide (k0 = k) then Some v0 else last_value k cells.
Proof.
  unfold last_value. rewrite filter_app.
  destruct (decide (k0 = k)) as [->|Hne].
  - rewrite filter_cons_True, filter_nil by done. by rewrite last_snoc.
  - rewrite filter_cons_False, filter_nil by done. by rewrite app_nil_r.
Qed.

(** The mapping built from a list of bindings by successive assignment:
    keys at their first occurrence, values from the last. *)
Lemma dict_of_items_keys {V} (items : list (pystr * V)) :
  map fst (dict_of_items items) = first_occurrences (map fst items).
Proof.
  induction items as [|[k v] items IH] using rev_ind; [done|].
  rewrite dict_of_items_snoc, dict_set_keys, IH, map_app. simpl.
  rewrite first_occurrences_snoc.
  destruct (decide (k ∈ map fst items)) as [Hin|Hin].
  - rewrite decide_True; [done|]. by apply first_occurrences_elem.
  - rewrite decide_False; [done|]. by rewrite first_occurrences_elem.
Qed.

Lemma dict_of_items_get {V} k (items : list (pystr * V)) :
  dict_get k (dict_of_items items) = last_value k items.
Proof.
  induction items as [|[k0 v0] items IH] using rev_ind; [done|].
  by rewrite dict_of_items_snoc, dict_get_set, last_value_snoc, IH.
Qed.

(** ** flatten_dict *)

Lemma flatten_dict_unfold d parent_key sep :
  flatten_dict d parent_key sep
  = dict_of_items (concat (map (flatten_entry parent_key sep) d)).
Proof.
  unfold flatten_dict. simpl. f_equal.
  induction d as [|[k x] d IH]; simpl; [done|].
  by rewrite IH.
Qed.

Lemma flatten_entries_flat sep d :
  Forall (λ kv, is_dict kv.2 = false) d →
  concat (map (flatten_entry [] sep) d) = d.
Proof.
  induction 1 as [|[k x] d Hx _ IH]; simpl; [done|].
  rewrite IH. unfold flatten_entry. simpl in *. by destruct x.
Qed.

Lemma flatten_dict_flat sep d :
  NoDup (map fst d) → Forall (λ kv, is_dict kv.2 = false) d →
  flatten_dict d [] sep = d.
Proof.
  intros Hnd Hflat.
  rewrite flatten_dict_unfold, flatten_entries_flat by done.
  by apply dict_of_items_nodup.
Qed.

(** C6. Flatten idempotence: a mapping (distinct keys) none of whose values
    is a mapping is returned unchanged by [flatten_dict], for any
    separator, entry for entry and in the same order; and an empty nested
    mapping adds no key to the result, wherever it stands. *)
Theorem flatten_idempotence (sep : pystr) (d : dict pyval) :
  NoDup (map fst d) →
  Forall (λ kv, is_dict kv.2 = false) d →
  flatten_dict d [] sep = d
  ∧ ∀ parent_key k d1 d2,
      flatten_dict (d1 ++ (k, PDict []) :: d2) parent_key sep
      = flatten_dict (d1 ++ d2) parent_key sep.
Proof.
  intros Hnd Hflat. split; [by apply flatten_dict_flat|].
  intros parent_key k d1 d2.
  rewrite !flatten_dict_unfold, !map_app, !concat_app. simpl.
  by destruct parent_key.
Qed.

Lemma flatten_idempotence_witness :
  flatten_dict [(py "a", PInt 1); (py "b", PStr (py "x"))] [] (py ".")
  = [(py "a", PInt 1); (py "b", PStr (py "x"))].
Proof.
  apply (flatten_idempotence (py ".")
           [(py "a", PInt 1); (py "b", PStr (py "x"))]).
  - apply (NoDup_cons_2 _ _); [|apply NoDup_singleton].
    intros H%list_elem_of_singleton. discriminate H.
  - repeat constructor.
Defined.

(** ** The value coercer *)

Section Coercer.
Variable repr_other : pyval → pystr.

Lemma coerce_cell_np_int z : coerce_cell repr_other (NpInt z) = PInt z.
Proof. reflexivity. Qed.

Lemma coerce_cell_np_float f :
  coerce_cell repr_other (NpFloat f) = if is_nan f then PNone else PFloat f.
Proof. unfold coerce_cell, coerce_steps. simpl. by destruct (is_nan f). Qed.

Lemma coerce_cell_float f :
  coerce_cell repr_other (PFloat f) = if is_nan f then PNone else PFloat f.
Proof. unfold coerce_cell, coerce_steps. simpl. by destruct (is_nan f). Qed.

(** C2 (amended). The coercer goes by the type of the cell, not by its
    value: an integer cell gives the integer of the same value, a float
    cell that is not NaN gives the float of the same value whether or not
    its fractional part is zero, and a missing cell ([None] or NaN) gives
    null. *)
Theorem coerce_numeric_by_type :
  (∀ z, coerce_cell repr_other (NpInt z) = PInt z
        ∧ coerce_cell repr_other (PInt z) = PInt z)
  ∧ (∀ f, coerce_cell repr_other (NpFloat f)
          = (if is_nan f then PNone else PFloat f)
          ∧ coerce_cell repr_other (PFloat f)
            = (if is_nan f then PNone else PFloat f))
  ∧ coerce_cell repr_other PNone = PNone.
Proof.
  split; [|split]; [done| |done].
  intros f. split; [apply coerce_cell_np_float|apply coerce_cell_float].
Qed.

(** C7. Per-cell fault isolation: when a step of the coercion raises, the
    cell's result is the stringified raw value (null for an absent one);
    nothing propagates, so a table with the [Key] and [Value] columns is
    always imported to the end. *)
Theorem cell_fault_isolation :
  (∀ value e,
     coerce_steps value = Raise e →
     coerce_cell repr_other value = stringify_fallback repr_other value)
  ∧ (∀ df,
       Key ∈ columns df → Value ∈ columns df →
       ∃ result,
         read_excel_to_json repr_other df = Ok result
         ∧ result = dict_of_items (map (row_binding repr_other df) (rows df))).
Proof.
  split.
  - intros value e Hraise. unfold coerce_cell. by rewrite Hraise.
  - intros df HK HV. eexists. split.
    + unfold read_excel_to_json. rewrite decide_True by done. reflexivity.
    + unfold dict_of_items. generalize (@nil (pystr * pyval)).
      induction (rows df) as [|row rs IH]; intros acc; [done|apply IH].
Qed.
End Coercer.

Lemma cell_fault_isolation_witness :
  coerce_cell sample_repr (PList [PInt 1; PInt 2]) = PStr (py "<object>")
  ∧ ∃ result,
      read_excel_to_json sample_repr
        {| columns := [Key; Value];
           rows := [[PStr (py "a"); PList [PInt 1; PInt 2]]] |} = Ok result.
Proof.
  destruct (cell_fault_isolation sample_repr) as [Hcell Htable]. split.
  - apply (Hcell (PList [PInt 1; PInt 2]) ValueError_truth_value).
    reflexivity.
  - destruct (Htable {| columns := [Key; Value];
                        rows := [[PStr (py "a"); PList [PInt 1; PInt 2]]] |})
      as (result & Hres & _).
    + simpl. left.
    + simpl. right. left.
    + by exists result.
Defined.

(** C2 (as stated) fails: the float cell 3.0 has an integer value, yet it
    is coerced to the float 3.0, not to the integer 3. *)
Lemma numeric_convention_fails_on_float_three :
  integral_valued (NpFloat (float_of_int 3)) = true
  ∧ coerce_cell sample_repr (NpFloat (float_of_int 3))
    = PFloat (float_of_int 3)
  ∧ ¬ numeric_convention_by_value.
Proof.
  split; [reflexivity|]. split; [reflexivity|]. intros H.
  destruct (H sample_repr (NpFloat (float_of_int 3))) as (Hint & _ & _).
  specialize (Hint eq_refl). discriminate Hint.
Qed.

(** ** Record reconstruction *)

Section Reconstruction.
Variable repr_other : pyval → pystr.

Lemma read_excel_to_json_rows df :
  Key ∈ columns df → Value ∈ columns df →
  read_excel_to_json repr_other df
  = Ok (dict_of_items (map (row_binding repr_other df) (rows df))).
Proof.
  intros HK HV. unfold read_excel_to_json. rewrite decide_True by done.
  f_equal. unfold dict_of_items. generalize (@nil (pystr * pyval)).
  induction (rows df) as [|row rs IH]; intros acc; [done|apply IH].
Qed.

(** C4. Missing-column failure: a table that lacks the [Key] column or the
    [Value] column makes the import raise the missing-columns error, and
    an error carries no mapping; a table with both columns is imported
    without that error. *)
Theorem missing_column_failure (df : DataFrame) :
  (read_excel_to_json repr_other df = Raise ValueError_columns
   ↔ Key ∉ columns df ∨ Value ∉ columns df)
  ∧ ((∃ result, read_excel_to_json repr_other df = Ok result)
     ↔ Key ∈ columns df ∧ Value ∈ columns df).
Proof.
  unfold read_excel_to_json.
  destruct (decide (Key ∈ columns df ∧ Value ∈ columns df)) as [Hc|Hc].
  - split; split; try done.
    + intros [?|?]; tauto.
    + intros _. eauto.
  - split; split; try done.
    + intros _. destruct (decide (Key ∈ columns df)); tauto.
    + by intros [result ?].
Qed.

(** C5. Record reconstruction: a table with the [Key] and [Value] columns
    is rebuilt into the mapping whose keys are the stringified row keys,
    each once and in the order of its first row, and in which a key is
    bound to the coerced value of the last row that carries it. *)
Theorem record_reconstruction (df : DataFrame) :
  Key ∈ columns df → Value ∈ columns df →
  ∃ result,
    read_excel_to_json repr_other df = Ok result
    ∧ map fst result
      = first_occurrences
          (map (λ row, (row_binding repr_other df row).1) (rows df))
    ∧ ∀ k, dict_get k result
           = last_value k (map (row_binding repr_other df) (rows df)).
Proof.
  intros HK HV. eexists. split; [by apply read_excel_to_json_rows|].
  split.
  - by rewrite dict_of_items_keys, map_map.
  - intros k. apply dict_of_items_get.
Qed.
End Reconstruction.

Lemma missing_column_failure_witness :
  read_excel_to_json sample_repr
    {| columns := [Key; py "Text"]; rows := [[PStr (py "a"); PInt 1]] |}
  = Raise ValueError_columns.
Proof.
  apply (missing_column_failure sample_repr
           {| columns := [Key; py "Text"];
              rows := [[PStr (py "a"); PInt 1]] |}).
  right. simpl. intros H. apply elem_of_cons in H as [H|H]; [discriminate H|].
  apply list_elem_of_singleton in H. discriminate H.
Defined.

Lemma record_reconstruction_witness :
  ∃ result,
    read_excel_to_json sample_repr
      {| columns := [Key; Value];
         rows := [[PStr (py "a"); PInt 1]; [PStr (py "b"); PInt 2];
                  [PStr (py "a"); PInt 3]] |} = Ok result
    ∧ map fst result = [py "a"; py "b"]
    ∧ dict_get (py "a") result = Some (PInt 3).
Proof.
  destruct (record_reconstruction sample_repr
              {| columns := [Key; Value];
                 rows := [[PStr (py "a"); PInt 1]; [PStr (py "b"); PInt 2];
                          [PStr (py "a"); PInt 3]] |})
    as (result & Hres & Hkeys & Hget).
  - simpl. left.
  - simpl. right. left.
  - exists result. split; [exact Hres|]. split.
    + rewrite Hkeys. reflexivity.
    + rewrite Hget. reflexivity.
Defined.

(** ** Newline-delimited input *)

Section Ndjson.
Variable json_loads : pystr → loads_outcome.
Variable strip : pystr → pystr.

Lemma ndjson_loop_accepted good rest i records :
  Forall (line_accepted json_loads strip) good →
  ∃ records',
    ndjson_loop json_loads strip (good ++ rest) i records
    = ndjson_loop json_loads strip rest (i + len good) records'.
Proof.
  intros Hgood. revert i records.
  induction Hgood as [|line good Hline _ IH]; intros i records.
  - exists records. unfold len. simpl. by rewrite Z.add_0_r.
  - simpl. unfold line_accepted in Hline.
    destruct (strip line) as [|c s] eqn:Hstrip.
    + destruct (IH (i + 1) records) as [records' ->].
      exists records'. f_equal. unfold len. simpl length. lia.
    + destruct Hline as [Hblank|[v Hv]]; [discriminate Hblank|].
      rewrite Hv.
      destruct (IH (i + 1) (records ++ [v])) as [records' ->].
      exists records'. f_equal. unfold len. simpl length. lia.
Qed.

(** C9. Newline-delimited input: when the lines before a malformed line
    are all accepted (blank, or parsed on their own), loading raises the
    error that names the malformed line by its 1-based number, whatever
    follows it. *)
Theorem ndjson_first_malformed_line (good : list pystr) (bad : pystr)
    (rest : list pystr) :
  Forall (line_accepted json_loads strip) good →
  line_malformed json_loads strip bad →
  load_json json_loads strip (good ++ bad :: rest) true
  = Raise (ValueError_line (len good + 1)).
Proof.
  intros Hgood [Hnonblank Hbad]. unfold load_json.
  destruct (ndjson_loop_accepted good (bad :: rest) 1 [] Hgood)
    as [records ->].
  simpl. destruct (strip bad) as [|c s]; [done|].
  rewrite Hbad. by rewrite Z.add_comm.
Qed.

(** When every line is accepted the load succeeds with a sequence. *)
Lemma ndjson_all_accepted lines :
  Forall (line_accepted json_loads strip) lines →
  ∃ records, load_json json_loads strip lines true = Ok (PList records).
Proof.
  intros Hall. unfold load_json.
  destruct (ndjson_loop_accepted lines [] 1 [] Hall) as [records Hloop].
  rewrite app_nil_r in Hloop. rewrite Hloop. by exists records.
Qed.
End Ndjson.

Lemma ndjson_first_malformed_line_witness :
  load_json sample_loads sample_strip [py "1"; []; py "{"; py "1"] true
  = Raise (ValueError_line 3).
Proof.
  apply (ndjson_first_malformed_line sample_loads sample_strip
           [py "1"; []] (py "{") [py "1"]).
  - apply Forall_cons_2; [right; by exists (PInt 1)|].
    apply Forall_cons_2; [by left|apply Forall_nil_2].
  - split; [discriminate|reflexivity].
Defined.

(** ** The empty mapping in the vertical layout *)

(** C10. Exporting the empty mapping in the vertical layout gives exactly
    one table, with no row and no column, so neither [Key] nor [Value];
    importing that table raises the missing-columns error. *)
Theorem vertical_empty_mapping (repr_other : pyval → pystr)
    (root_name sep : pystr) :
  ∃ name df,
    build_frames (PDict []) root_name sep true = Some [(name, df)]
    ∧ rows df = [] ∧ columns df = []
    ∧ read_excel_to_json repr_other df = Raise ValueError_columns.
Proof.
  exists (make_sheet_name root_name), DataFrame_empty.
  split; [|by repeat split].
  unfold build_frames, add_frame, uniq_sheet_name. simpl.
  rewrite decide_False by apply not_elem_of_empty. reflexivity.
Qed.

(** ** The vertical round trip *)

Lemma stored_as_float_text (keys : list pystr) :
  stored_as_float (map PStr keys) = false.
Proof. by destruct keys. Qed.

Lemma frame_rows_two_columns (a b : list pyval) :
  length a = length b →
  map (λ i, map (λ c : list pyval, default NaN (c !! i)) [a; b])
      (seq 0 (length a))
  = zip_with (λ x y, [x; y]) a b.
Proof.
  revert b. induction a as [|x a IH]; intros [|y b] Hlen; try done.
  simpl in Hlen. injection Hlen as Hlen. simpl. f_equal.
  rewrite <- (IH b Hlen), <- seq_shift, map_map. reflexivity.
Qed.

Lemma column_typing_length vals :
  length (column_typing vals) = length vals.
Proof.
  unfold column_typing. destruct (stored_as_float vals); [|done].
  apply length_map.
Qed.

Lemma record_columns_key_value (m : dict pyval) :
  m ≠ [] →
  record_columns (map (λ kv, [(Key, PStr kv.1); (Value, kv.2)]) m)
  = [Key; Value].
Proof.
  destruct m as [|kv m]; [done|]. intros _. unfold record_columns. simpl.
  change (fold_left _ [Key; Value] []) with [Key; Value].
  induction m as [|kv' m IH]; [done|]. simpl. exact IH.
Qed.

(** The table of the vertical layout for a non-empty mapping: the keys as
    text next to the values as the [Value] column stores them. *)
Lemma vertical_frame (m : dict pyval) :
  m ≠ [] →
  DataFrame_records (map (λ kv, [(Key, PStr kv.1); (Value, kv.2)]) m)
  = {| columns := [Key; Value];
       rows := zip_with (λ k v, [PStr k; v])
                 (map fst m) (column_typing (map snd m)) |}.
Proof.
  intros Hne. unfold DataFrame_records.
  rewrite record_columns_key_value by done. unfold frame_of_columns.
  f_equal. simpl map at 2. rewrite !map_map. simpl.
  change (map (λ x : pystr * pyval, PStr x.1) m)
    with (map (λ x : pystr * pyval, PStr (fst x)) m).
  rewrite <- (map_map fst PStr m).
  assert (Hkeys : column_typing (map PStr (map fst m)) = map PStr (map fst m)).
  { unfold column_typing. by rewrite stored_as_float_text. }
  rewrite Hkeys.
  transitivity (zip_with (λ x y : pyval, [x; y]) (map PStr (map fst m))
                  (column_typing (map snd m))).
  - rewrite <- frame_rows_two_columns
      by by rewrite column_typing_length, !length_map.
    by rewrite !length_map.
  - apply zip_with_fmap_l.
Qed.

Lemma sample_read_sheet_as_written (df : DataFrame) :
  read_back_as_written df (sample_read_sheet df).
Proof.
  split; [done|]. simpl.
  induction (rows df) as [|row rs IH]; constructor; [|exact IH].
  induction row as [|c row IHrow]; constructor; [|exact IHrow].
  destruct (missing_cell c) eqn:Hc; [right|left]; done.
Qed.

Section RoundTrip.
Variable repr_other : pyval → pystr.
Variable read_sheet : DataFrame → DataFrame.

Lemma coerce_cell_scalar v :
  json_scalar v = true → coerce_cell repr_other v = v.
Proof.
  destruct v as [| | |f| | | | | | |]; try done.
  simpl. intros Hf. rewrite coerce_cell_float. by destruct (is_nan f).
Qed.

Lemma coerce_cell_missing c :
  missing_cell c = true → coerce_cell repr_other c = PNone.
Proof.
  destruct c as [| | |f| | | | |f| |]; try done; simpl; intros Hf.
  - rewrite coerce_cell_float. by rewrite Hf.
  - rewrite coerce_cell_np_float. by rewrite Hf.
Qed.

Lemma coerce_same_cell written read :
  same_cell written read →
  coerce_cell repr_other read = coerce_cell repr_other written.
Proof.
  intros [->|[Hw Hr]]; [done|]. by rewrite !coerce_cell_missing.
Qed.

(** Importing the frame read from the sheet of a vertical table. *)
Lemma read_vertical_rows (keys : list pystr) (vals : list pyval)
    (df' : DataFrame) :
  length keys = length vals → NoDup keys →
  read_back_as_written
    {| columns := [Key; Value];
       rows := zip_with (λ k v, [PStr k; v]) keys vals |} df' →
  read_excel_to_json repr_other df'
  = Ok (zip keys (map (coerce_cell repr_other) vals)).
Proof.
  intros Hlen Hnd [Hcols Hrows]. destruct df' as [cols' rows'].
  simpl in Hcols, Hrows. subst cols'.
  rewrite read_excel_to_json_rows by (simpl; by_evaluation).
  f_equal. simpl.
  assert (Hbind : ∀ all_rows,
    map (row_binding repr_other
           {| columns := [Key; Value]; rows := all_rows |}) rows'
    = zip keys (map (coerce_cell repr_other) vals)).
  { intros all_rows. clear Hnd. revert vals rows' Hlen Hrows.
    induction keys as [|k keys IH]; intros [|v vals] rs Hlen Hrs;
      try done; simpl in Hrs.
    - by inversion Hrs.
    - inversion Hrs as [|row row' rest rest' Hrow Hrest]; subst.
      simpl in Hlen. injection Hlen as Hlen. simpl. f_equal.
      + inversion Hrow as [|c1 k' r1 r1' Hk Hrow1]; subst.
        inversion Hrow1 as [|c2 v' r2 r2' Hv Hrow2]; subst.
        inversion Hrow2; subst.
        destruct Hk as [->|[Hmiss _]]; [|done].
        unfold row_binding. simpl.
        change (row_get [Key; Value] [PStr k; v'] Value) with v'.
        change (row_get [Key; Value] [PStr k; v'] Key) with (PStr k).
        simpl. by rewrite (coerce_same_cell v v').
      + by apply IH. }
  rewrite Hbind. apply dict_of_items_nodup.
  rewrite fst_zip; [done|]. rewrite length_map. lia.
Qed.

(** The vertical export of a flat mapping is its vertical table. *)
Lemma vertical_export_flat root_name sep (m : dict pyval) :
  m ≠ [] → NoDup (map fst m) →
  Forall (λ kv, is_dict kv.2 = false) m →
  build_frames (PDict m) root_name sep true
  = Some [(make_sheet_name root_name, vertical_table m)].
Proof.
  intros Hne Hnd Hflat. unfold build_frames.
  rewrite flatten_dict_flat by done.
  rewrite vertical_frame by done.
  unfold add_frame, uniq_sheet_name. simpl.
  by rewrite decide_False by apply not_elem_of_empty.
Qed.

Lemma scalar_entries_not_dict (m : dict pyval) :
  Forall (λ kv, json_scalar kv.2 = true) m →
  Forall (λ kv, is_dict kv.2 = false) m.
Proof.
  intros H. eapply Forall_impl; [exact H|].
  intros [k v] Hv. simpl in *. by destruct v.
Qed.

(** What the round trip returns for any non-empty flat mapping whose sheet
    is read back as written: the keys in order, bound to the coerced
    contents of the [Value] column. *)
Lemma vertical_round_trip_nonempty root_name sep (m : dict pyval) :
  m ≠ [] → NoDup (map fst m) →
  Forall (λ kv, is_dict kv.2 = false) m →
  read_back_as_written (vertical_table m) (read_sheet (vertical_table m)) →
  vertical_round_trip repr_other read_sheet root_name sep m
  = Some (Ok (zip (map fst m)
                  (map (coerce_cell repr_other)
                       (column_typing (map snd m))))).
Proof.
  intros Hne Hnd Hflat Hsheet. unfold vertical_round_trip.
  rewrite vertical_export_flat by done. simpl. f_equal.
  apply (read_vertical_rows (map fst m) (column_typing (map snd m)));
    [|done|exact Hsheet].
  by rewrite column_typing_length, !length_map.
Qed.

Lemma coerce_cell_to_float v :
  json_scalar v = true → is_int v = false →
  coerce_cell repr_other (to_float v) = v.
Proof.
  destruct v as [| | |f| | | | | | |]; try done.
  simpl. intros Hf _. rewrite coerce_cell_float. by destruct (is_nan f).
Qed.

Lemma coerce_kept_column (vals : list pyval) :
  Forall (λ v, json_scalar v = true) vals →
  int_stored_as_float vals = false →
  map (coerce_cell repr_other) (column_typing vals) = vals.
Proof.
  intros Hscalar Hkept. unfold column_typing, int_stored_as_float in *.
  destruct (stored_as_float vals); simpl in Hkept.
  - induction Hscalar as [|v vals Hv _ IH]; [done|].
    simpl in *. apply orb_false_elim in Hkept as [Hint Hkept].
    rewrite coerce_cell_to_float by done. f_equal. by apply IH.
  - clear Hkept. induction Hscalar as [|v vals Hv _ IH]; [done|].
    simpl. rewrite coerce_cell_scalar by done. f_equal. exact IH.
Qed.

(** C1 (amended). Vertical round trip through the sheet: for every
    non-empty flat mapping with distinct string keys whose values are null
    or scalars other than NaN, the integers within the range of a float,
    [build_frames] in vertical mode gives one table, and whenever the sheet
    written from that table is read back with its labels and cells (a null
    may come back as NaN), importing it gives the mapping back, same keys,
    same values, same order; unless the values are all numbers or nulls and
    put an integer next to a float or a null, so that the table stores the
    integer as a float. *)
Theorem vertical_round_trip_kept root_name sep (m : dict pyval) :
  m ≠ [] →
  NoDup (map fst m) →
  Forall (λ kv, json_scalar kv.2 = true) m →
  Forall (λ kv, converts_to_float kv.2 = true) m →
  int_stored_as_float (map snd m) = false →
  ∃ df,
    build_frames (PDict m) root_name sep true
    = Some [(make_sheet_name root_name, df)]
    ∧ (read_back_as_written df (read_sheet df) →
       vertical_round_trip repr_other read_sheet root_name sep m
       = Some (Ok m)).
Proof.
  intros Hne Hnd Hscalar _ Hkept.
  pose proof (scalar_entries_not_dict m Hscalar) as Hflat.
  exists (vertical_table m). split; [by apply vertical_export_flat|].
  intros Hsheet. rewrite vertical_round_trip_nonempty by done.
  rewrite coerce_kept_column; [|by apply Forall_fmap|done].
  by rewrite zip_fst_snd.
Qed.
End RoundTrip.

Lemma vertical_round_trip_kept_witness :
  vertical_round_trip sample_repr sample_read_sheet (py "data") (py ".")
    [(py "a", PInt 1); (py "b", PStr (py "x")); (py "c", PNone)]
  = Some (Ok [(py "a", PInt 1); (py "b", PStr (py "x")); (py "c", PNone)]).
Proof.
  destruct (vertical_round_trip_kept sample_repr sample_read_sheet
              (py "data") (py ".")
              [(py "a", PInt 1); (py "b", PStr (py "x")); (py "c", PNone)])
    as (df & Hdf & Htrip).
  - discriminate.
  - apply (bool_decide_unpack _). vm_compute. exact I.
  - repeat constructor.
  - repeat constructor.
  - reflexivity.
  - apply Htrip. apply sample_read_sheet_as_written.
Defined.

(** C1 (as stated) fails on the empty mapping: its table has no column, so
    even a sheet that gives every table back as written is imported to the
    missing-columns error instead of the empty mapping. *)
Lemma vertical_round_trip_fails_on_empty :
  vertical_round_trip sample_repr sample_read_sheet (py "data") (py ".") []
  = Some (Raise ValueError_columns)
  ∧ ¬ vertical_round_trip_for_all.
Proof.
  split; [reflexivity|]. intros H.
  specialize (H sample_repr sample_read_sheet (py "data") (py ".") []
                sample_read_sheet_as_written).
  simpl in H. specialize (H (NoDup_nil_2) (Forall_nil_2 _)).
  discriminate H.
Qed.

(** A column of numbers and nulls that is not all integers is stored as
    floats: the integer 1 next to a null comes back as the float 1.0. *)
Lemma vertical_round_trip_int_next_to_null :
  vertical_round_trip sample_repr sample_read_sheet (py "data") (py ".")
    [(py "a", PInt 1); (py "b", PNone)]
  = Some (Ok [(py "a", PFloat (float_of_int 1)); (py "b", PNone)]).
Proof. reflexivity. Qed.

(** Beyond 2^53 the float is not even equal in value to the integer. *)
Example vertical_round_trip_large_int_next_to_null :
  vertical_round_trip sample_repr sample_read_sheet (py "data") (py ".")
    [(py "a", PInt 9007199254740993); (py "b", PNone)]
  = Some (Ok [(py "a", PFloat (float_of_int 9007199254740992));
              (py "b", PNone)]).
Proof. reflexivity. Qed.

(** An integer outside 64 bits keeps its column as objects, and comes back
    as it is. *)
Example vertical_round_trip_huge_int_next_to_null :
  vertical_round_trip sample_repr sample_read_sheet (py "data") (py ".")
    [(py "a", PInt (2 ^ 70)); (py "b", PNone)]
  = Some (Ok [(py "a", PInt (2 ^ 70)); (py "b", PNone)]).
Proof. reflexivity. Qed.

(** End-to-end example 1 of the specification: the nested mapping comes
    back flattened. *)
Example vertical_nested_comes_back_flat :
  vertical_round_trip sample_repr sample_read_sheet (py "data") (py ".")
    [(py "a", PInt 1); (py "b", PDict [(py "c", PInt 2); (py "d", PInt 3)])]
  = Some (Ok [(py "a", PInt 1); (py "b.c", PInt 2); (py "b.d", PInt 3)]).
Proof. reflexivity. Qed.

(** ** Decimal rendering of the counter *)

Lemma digits_value_snoc s c :
  digits_value (s ++ [c]) = 10 * digits_value s + (Z.of_N c - 48).
Proof. unfold digits_value. by rewrite fold_left_app. Qed.

Lemma digits_value_digits fuel n :
  0 ≤ n < 2 ^ Z.of_nat fuel → digits_value (digits fuel n) = n.
Proof.
  revert n. induction fuel as [|fuel IH]; intros n Hn.
  - change (2 ^ Z.of_nat 0) with 1 in Hn.
    assert (n = 0) as -> by lia. reflexivity.
  - simpl digits. rewrite digits_value_snoc.
    assert (Hmod : 0 ≤ n mod 10 < 10) by (apply Z.mod_pos_bound; lia).
    rewrite Z2N.id by lia.
    destruct (n <? 10) eqn:Hlt.
    + apply Z.ltb_lt in Hlt. change (digits_value []) with 0.
      rewrite Z.mod_small by lia. lia.
    + apply Z.ltb_ge in Hlt. rewrite IH.
      * pose proof (Z.div_mod n 10). lia.
      * rewrite Nat2Z.inj_succ, Z.pow_succ_r in Hn by lia.
        split; [apply Z.div_pos; lia|].
        apply Z.div_lt_upper_bound; lia.
Qed.

Lemma str_int_value i : 0 ≤ i → digits_value (str_int i) = i.
Proof.
  intros Hi. unfold str_int.
  destruct (i <? 0) eqn:Hneg; [apply Z.ltb_lt in Hneg; lia|].
  apply digits_value_digits. split; [done|].
  rewrite Nat2Z.inj_succ, Z2Nat.id by apply Z.log2_nonneg.
  destruct (decide (i = 0)) as [->|Hne]; [done|].
  apply Z.log2_spec. lia.
Qed.

Lemma digits_are_digits fuel n :
  Forall (λ c, (48 ≤ c ≤ 57)%N) (digits fuel n).
Proof.
  revert n. induction fuel as [|fuel IH]; intros n; simpl; [constructor|].
  apply Forall_app. split.
  - destruct (n <? 10); [constructor|apply IH].
  - apply Forall_singleton.
    assert (Hmod : 0 ≤ n mod 10 < 10) by (apply Z.mod_pos_bound; lia).
    lia.
Qed.

Lemma str_int_digits i :
  0 ≤ i → Forall (λ c, (48 ≤ c ≤ 57)%N) (str_int i).
Proof.
  intros Hi. unfold str_int.
  destruct (i <? 0) eqn:Hneg; [apply Z.ltb_lt in Hneg; lia|].
  apply digits_are_digits.
Qed.

Lemma digits_length fuel n (k : nat) :
  (1 ≤ k)%nat → 0 ≤ n < 10 ^ Z.of_nat k → (length (digits fuel n) ≤ k)%nat.
Proof.
  revert n k. induction fuel as [|fuel IH]; intros n k Hk Hn; simpl; [lia|].
  rewrite length_app. simpl.
  destruct (n <? 10) eqn:Hlt; [simpl; lia|].
  apply Z.ltb_ge in Hlt.
  destruct k as [|[|k]]; [lia|simpl in Hn; lia|].
  assert (length (digits fuel (n / 10)) ≤ S k)%nat; [|lia].
  apply IH; [lia|].
  rewrite (Nat2Z.inj_succ (S k)), Z.pow_succ_r in Hn by lia.
  split; [apply Z.div_pos; lia|].
  apply Z.div_lt_upper_bound; lia.
Qed.

Lemma str_int_length i :
  0 ≤ i < 10 ^ 30 → (length (str_int i) ≤ 30)%nat.
Proof.
  intros Hi. unfold str_int.
  destruct (i <? 0) eqn:Hneg; [apply Z.ltb_lt in Hneg; lia|].
  apply digits_length; [lia|]. exact Hi.
Qed.

Lemma str_int_nonempty i : str_int i ≠ [].
Proof.
  unfold str_int. destruct (i <? 0); [done|].
  simpl. intros H. by apply app_eq_nil in H as [_ H].
Qed.

(** ** Candidates of the name search *)

Lemma split_at_separator {A} (x : A) (p1 p2 d1 d2 : list A) :
  x ∉ d1 → x ∉ d2 → p1 ++ x :: d1 = p2 ++ x :: d2 → d1 = d2.
Proof.
  revert p2. induction p1 as [|a p1 IH]; intros [|b p2] H1 H2 Heq;
    simpl in Heq.
  - congruence.
  - injection Heq as -> ->. exfalso. apply H1, elem_of_app. right. left.
  - injection Heq as -> <-. exfalso. apply H2, elem_of_app. right. left.
  - injection Heq as _ Heq. by apply (IH p2).
Qed.

Lemma underscore_not_digit (s : pystr) :
  Forall (λ c, (48 ≤ c ≤ 57)%N) s → 95%N ∉ s.
Proof.
  intros Hs Hin. rewrite Forall_forall in Hs. specialize (Hs _ Hin). lia.
Qed.

Lemma candidate_inj name i j :
  0 ≤ i → 0 ≤ j → candidate name i = candidate name j → i = j.
Proof.
  intros Hi Hj Heq. unfold candidate in Heq.
  apply split_at_separator in Heq;
    [|by apply underscore_not_digit, str_int_digits..].
  rewrite <- (str_int_value i), <- (str_int_value j) by done.
  by rewrite Heq.
Qed.

Lemma invalid_codes ch :
  ch ∈ invalid ↔ ch ∈ [91; 93; 58; 42; 63; 47; 92]%N.
Proof. reflexivity. Qed.

Lemma slice_to_length {A} n (s : list A) :
  0 ≤ n → (length (slice_to n s) ≤ Z.to_nat n)%nat.
Proof.
  intros Hn. unfold slice_to.
  destruct (0 <=? n) eqn:H; [|apply Z.leb_gt in H; lia].
  rewrite length_take. lia.
Qed.

Lemma slice_to_sublist {A} (P : A → Prop) n (s : list A) :
  Forall P s → Forall P (slice_to n s).
Proof. intros Hs. unfold slice_to. destruct (0 <=? n); by apply Forall_take. Qed.

Lemma make_sheet_name_valid base : valid_sheet_name (make_sheet_name base).
Proof.
  unfold make_sheet_name. split; [|split].
  - rewrite length_take. lia.
  - destruct base as [|c base]; [done|]. simpl. done.
  - apply Forall_take. destruct base as [|c base].
    + by_evaluation.
    + apply Forall_forall. intros ch Hch.
      apply list_elem_of_fmap in Hch as (c0 & -> & _).
      destruct (decide (c0 ∈ invalid)); [by_evaluation|done].
Qed.

Lemma candidate_valid name i :
  valid_sheet_name name → 0 ≤ i < 10 ^ 30 → valid_sheet_name (candidate name i).
Proof.
  intros (Hlen & _ & Hchars) Hi. unfold candidate.
  pose proof (str_int_length i Hi) as Hd.
  assert (Hs : len (95%N :: str_int i) ≤ 31) by (unfold len; simpl; lia).
  split; [|split].
  - rewrite length_app.
    pose proof (slice_to_length (31 - len (95%N :: str_int i)) name).
    unfold len in *. simpl length in *. lia.
  - intros H. by apply app_eq_nil in H as [_ H].
  - apply Forall_app. split; [by apply slice_to_sublist|].
    apply Forall_cons. split.
    + by_evaluation.
    + eapply Forall_impl; [apply str_int_digits; lia|].
      intros c Hc. simpl in Hc. rewrite invalid_codes.
      rewrite !elem_of_cons, elem_of_nil. lia.
Qed.

(** ** The name search terminates *)

Lemma uniq_loop_some fuel name used i c :
  uniq_loop fuel name used i = Some c →
  ∃ j, i ≤ j < i + Z.of_nat fuel ∧ c = candidate name j ∧ c ∉ used.
Proof.
  revert i. induction fuel as [|fuel IH]; intros i; simpl; [done|].
  destruct (decide (candidate name i ∈ used)) as [Hin|Hout].
  - intros Hloop. destruct (IH _ Hloop) as (j & Hj & Hc & Hfresh).
    exists j. split; [lia|done].
  - intros [= <-]. exists i. split; [lia|done].
Qed.

Lemma uniq_loop_none fuel name used i :
  uniq_loop fuel name used i = None →
  ∀ n, (n < fuel)%nat → candidate name (i + Z.of_nat n) ∈ used.
Proof.
  revert i. induction fuel as [|fuel IH]; intros i; simpl; [lia|].
  destruct (decide (candidate name i ∈ used)) as [Hin|Hout]; [|done].
  intros Hloop [|n] Hn.
  - by rewrite Z.add_0_r.
  - replace (i + Z.of_nat (S n)) with (i + 1 + Z.of_nat n) by lia.
    apply (IH _ Hloop). lia.
Qed.

(** More iterations than used names always find a free candidate: the
    candidates are pairwise distinct. *)
Lemma uniq_loop_total fuel name used i :
  0 ≤ i → (size used < fuel)%nat → is_Some (uniq_loop fuel name used i).
Proof.
  intros Hi Hfuel.
  destruct (uniq_loop fuel name used i) as [c|] eqn:Hloop; [by exists c|].
  exfalso. pose proof (uniq_loop_none _ _ _ _ Hloop) as Hall.
  set (cands := (λ n, candidate name (i + Z.of_nat n)) <$> seq 0 fuel).
  assert (Hnd : NoDup cands).
  { apply NoDup_fmap_2_strong; [|apply NoDup_seq].
    intros n m _ _ Heq. apply candidate_inj in Heq; lia. }
  assert (Hsub : list_to_set cands ⊆ used).
  { intros c Hc. apply elem_of_list_to_set in Hc.
    apply list_elem_of_fmap in Hc as (n & -> & Hn).
    apply Hall. apply elem_of_seq in Hn. lia. }
  apply subseteq_size in Hsub.
  rewrite size_list_to_set in Hsub by done.
  unfold cands in Hsub. rewrite length_fmap, length_seq in Hsub. lia.
Qed.

(** Once the search has found a name, more iterations find the same one. *)
Lemma uniq_loop_fuel_mono fuel fuel' name used i c :
  (fuel ≤ fuel')%nat →
  uniq_loop fuel name used i = Some c →
  uniq_loop fuel' name used i = Some c.
Proof.
  revert fuel' i. induction fuel as [|fuel IH]; intros fuel' i Hle; [done|].
  destruct fuel' as [|fuel']; [lia|]. simpl.
  destruct (decide (candidate name i ∈ used)); [|done].
  apply IH. lia.
Qed.

(** The contract of the sheet planner: it always returns, the name is not
    among the used ones and is registered, and it meets the constraints
    as long as the counter stays below 30 digits. *)
Lemma uniq_sheet_name_spec base used :
  ∃ name,
    uniq_sheet_name base used = Some (name, {[name]} ∪ used)
    ∧ (name ∉ used)
    ∧ (Z.of_nat (size used) + 2 < 10 ^ 30 → valid_sheet_name name).
Proof.
  unfold uniq_sheet_name.
  destruct (decide (make_sheet_name base ∈ used)) as [Hin|Hout].
  - destruct (uniq_loop_total (S (size used)) (make_sheet_name base) used 2)
      as [c Hc]; [lia..|].
    rewrite Hc. simpl. exists c. split; [done|].
    apply uniq_loop_some in Hc as (j & Hj & -> & Hfresh). split; [done|].
    intros Hbound. apply candidate_valid; [apply make_sheet_name_valid|lia].
  - exists (make_sheet_name base). split; [done|]. split; [done|].
    intros _. apply make_sheet_name_valid.
Qed.

(** ** Naming a sequence of tables *)

Lemma assign_names_app plan1 plan2 used :
  assign_names (plan1 ++ plan2) used
  = '(t1, u1) ← assign_names plan1 used;
    '(t2, u2) ← assign_names plan2 u1;
    Some (t1 ++ t2, u2).
Proof.
  revert used. induction plan1 as [|[base df] plan1 IH]; intros used; simpl.
  - by destruct (assign_names plan2 used) as [[t2 u2]|].
  - destruct (uniq_sheet_name base used) as [[name used']|]; simpl; [|done].
    rewrite IH. destruct (assign_names plan1 used') as [[t1 u1]|]; simpl;
      [|done].
    by destruct (assign_names plan2 u1) as [[t2 u2]|].
Qed.

Lemma assign_names_spec plan used :
  ∃ tables used',
    assign_names plan used = Some (tables, used')
    ∧ map snd tables = map snd plan
    ∧ NoDup (map fst tables)
    ∧ (∀ name, name ∈ map fst tables → name ∉ used)
    ∧ used' = list_to_set (map fst tables) ∪ used
    ∧ (Z.of_nat (size used) + len plan + 1 < 10 ^ 30 →
       Forall valid_sheet_name (map fst tables)).
Proof.
  revert used. induction plan as [|[base df] plan IH]; intros used.
  - exists [], used. simpl. split; [done|]. split; [done|].
    split; [constructor|]. split; [|split].
    + intros name Hname. by apply elem_of_nil in Hname.
    + by rewrite (left_id_L ∅ (∪)).
    + intros _. constructor.
  - destruct (uniq_sheet_name_spec base used) as (name & Hname & Hfresh & Hvalid).
    destruct (IH ({[name]} ∪ used))
      as (rest & used' & Hrest & Htables & Hnd & Hnew & Hused & Hvalids).
    exists ((name, df) :: rest), used'. simpl. rewrite Hname. simpl.
    rewrite Hrest. simpl. split; [done|]. split; [by rewrite Htables|].
    assert (Hsize : size ({[name]} ∪ used) = S (size used)).
    { rewrite size_union by (apply disjoint_singleton_l; done).
      by rewrite size_singleton. }
    split; [|split; [|split]].
    + constructor; [|done]. intros Hin. apply (Hnew _ Hin).
      apply elem_of_union_l, elem_of_singleton. done.
    + intros n [->|Hn]%elem_of_cons; [done|].
      intros Hin. apply (Hnew _ Hn). by apply elem_of_union_r.
    + rewrite Hused. rewrite (assoc_L (∪)). f_equal. apply (comm_L (∪)).
    + intros Hbound. unfold len in Hbound. simpl length in Hbound.
      constructor; [apply Hvalid; lia|].
      apply Hvalids. rewrite Hsize. unfold len. lia.
Qed.

Lemma assign_names_length plan used tables used' :
  assign_names plan used = Some (tables, used') → length tables = length plan.
Proof.
  intros H. destruct (assign_names_spec plan used)
    as (t & u & Ht & Hsnd & _). rewrite H in Ht. injection Ht as <- <-.
  by rewrite <- (length_map snd tables), Hsnd, length_map.
Qed.

(** ** build_frames follows its plan *)

Lemma add_frame_spec base df st :
  names_registered st →
  ∃ name,
    uniq_sheet_name base (used_names st)
    = Some (name, {[name]} ∪ used_names st)
    ∧ add_frame base df st
      = Some {| frames := frames st ++ [(name, df)];
                used_names := {[name]} ∪ used_names st;
                scalars := scalars st |}
    ∧ names_registered
        {| frames := frames st ++ [(name, df)];
           used_names := {[name]} ∪ used_names st;
           scalars := scalars st |}.
Proof.
  intros Hreg.
  destruct (uniq_sheet_name_spec base (used_names st))
    as (name & Hname & Hfresh & _).
  exists name. split; [done|]. split.
  - unfold add_frame. rewrite Hname. simpl.
    rewrite dict_set_fresh; [done|]. intros Hin. by apply Hfresh, Hreg.
  - intros n. simpl. rewrite map_app, elem_of_app. simpl.
    intros [Hn|Hn%list_elem_of_singleton].
    + by apply elem_of_union_r, Hreg.
    + by apply elem_of_union_l, elem_of_singleton.
Qed.

Lemma horizontal_loop_plan sep d st :
  names_registered st →
  horizontal_loop sep d st
  = '(tables, used) ←
       assign_names (omap (entry_table sep) d) (used_names st);
    Some {| frames := frames st ++ tables;
            used_names := used;
            scalars :=
              fold_left (λ s kv, dict_set kv.1 kv.2 s)
                (filter (λ kv, is_scalar_entry kv = true) d) (scalars st) |}.
Proof.
  assert (Hstruct : ∀ k df d' st,
    names_registered st →
    (∀ st', names_registered st' →
       horizontal_loop sep d' st'
       = '(tables, used) ←
            assign_names (omap (entry_table sep) d') (used_names st');
         Some {| frames := frames st' ++ tables;
                 used_names := used;
                 scalars :=
                   fold_left (λ s kv, dict_set kv.1 kv.2 s)
                     (filter (λ kv, is_scalar_entry kv = true) d')
                     (scalars st') |}) →
    (st' ← add_frame k df st; horizontal_loop sep d' st')
    = '(tables, used) ←
         assign_names ((k, df) :: omap (entry_table sep) d') (used_names st);
      Some {| frames := frames st ++ tables;
              used_names := used;
              scalars :=
                fold_left (λ s kv, dict_set kv.1 kv.2 s)
                  (filter (λ kv, is_scalar_entry kv = true) d')
                  (scalars st) |}).
  { clear d st. intros k df d' st Hreg IH.
    destruct (add_frame_spec k df st Hreg) as (name & Hname & Hadd & Hreg').
    rewrite Hadd. simpl. rewrite Hname. simpl. rewrite (IH _ Hreg'). simpl.
    destruct (assign_names _ _) as [[tables used]|]; simpl; [|done].
    by rewrite <- app_assoc. }
  revert st. induction d as [|[k v] d IH]; intros st Hreg.
  - simpl. rewrite app_nil_r. by destruct st.
  - destruct v as [| | | | |l|dv| | | |]; simpl horizontal_loop;
      try (rewrite IH by exact Hreg;
           rewrite filter_cons_True by done; reflexivity).
    + rewrite filter_cons_False by done.
      change (omap (entry_table sep) ((k, PList l) :: d))
        with ((k, normalize_list sep l) :: omap (entry_table sep) d).
      by apply Hstruct.
    + rewrite filter_cons_False by done.
      change (omap (entry_table sep) ((k, PDict dv) :: d))
        with ((k, json_normalize [dv] sep) :: omap (entry_table sep) d).
      by apply Hstruct.
Qed.

Lemma dict_of_items_nil {V} (items : list (pystr * V)) :
  dict_of_items items = [] → items = [].
Proof.
  destruct items as [|[k v] items] using rev_ind; [done|].
  rewrite dict_of_items_snoc. by destruct (dict_of_items items) as [|[k' v'] d];
    simpl; [|destruct (decide (k' = k))].
Qed.

Lemma entry_or_scalar sep kv :
  is_Some (entry_table sep kv) ∨ is_scalar_entry kv = true.
Proof.
  destruct kv as [k v]. unfold entry_table, is_scalar_entry. simpl.
  destruct v; simpl; eauto.
Qed.

Lemma build_frames_plan obj root_name sep vertical :
  build_frames obj root_name sep vertical
  = fst <$> assign_names (export_plan obj root_name sep vertical) ∅.
Proof.
  assert (Hone : ∀ df,
    frames <$> add_frame root_name df initial_state
    = fst <$> assign_names [(root_name, df)] ∅).
  { intros df. unfold add_frame. simpl.
    by destruct (uniq_sheet_name root_name ∅) as [[name used]|]. }
  destruct obj; try (destruct vertical; apply Hone).
  unfold build_frames, export_plan. destruct vertical; [apply Hone|].
  unfold horizontal_plan.
  rewrite horizontal_loop_plan by (intros name H; by apply elem_of_nil in H).
  rewrite assign_names_app. simpl used_names. simpl scalars. simpl frames.
  fold (dict_of_items (filter (λ kv, is_scalar_entry kv = true) d)).
  remember (dict_of_items (filter (λ kv, is_scalar_entry kv = true) d))
    as scs eqn:Hsc.
  symmetry in Hsc.
  destruct (assign_names_spec (omap (entry_table sep) d) ∅)
    as (tA & uA & HA & HsndA & _ & _ & HuA & _).
  rewrite HA. simpl.
  assert (Hreg : names_registered
            {| frames := tA; used_names := uA; scalars := scs |}).
  { intros name Hin. simpl in *. rewrite HuA.
    by apply elem_of_union_l, elem_of_list_to_set. }
  destruct scs as [|kv sc].
  - simpl. destruct d as [|kv d].
    + simpl in HA. injection HA as <- <-. simpl.
      unfold add_frame. simpl.
      by destruct (uniq_sheet_name root_name ∅) as [[name used]|].
    + assert (HtA : tA ≠ []).
      { apply dict_of_items_nil in Hsc.
        destruct (entry_or_scalar sep kv) as [[t Ht]|Hs].
        - intros ->. simpl in HsndA. rewrite Ht in HsndA. done.
        - rewrite filter_cons_True in Hsc by done. done. }
      destruct tA as [|t tA]; [done|]. simpl. by rewrite app_nil_r.
  - destruct (add_frame_spec root_name (json_normalize [kv :: sc] sep) _ Hreg)
      as (name & Hname & Hadd & _).
    simpl in Hname, Hadd. rewrite Hadd. simpl. rewrite Hname. simpl.
    destruct d as [|kv' d]; [done|]. simpl.
    by destruct tA.
Qed.

(** ** Tables of the horizontal layout *)










Lemma omap_length_le {A B} (f : A → option B) (l : list A) :
  (length (omap f l) ≤ length l)%nat.
Proof.
  induction l as [|x l IH]; [simpl; lia|].
  change (omap f (x :: l))
    with (match f x with Some y => y :: omap f l | None => omap f l end).
  destruct (f x); simpl; lia.
Qed.

Lemma export_plan_length obj root_name sep vertical :
  len (export_plan obj root_name sep vertical) ≤ top_level_entries obj + 1.
Proof.
  unfold len.
  destruct obj; try (destruct vertical; simpl; lia).
  unfold export_plan, top_level_entries, len.
  destruct vertical; [simpl; lia|].
  unfold horizontal_plan. rewrite !length_app.
  pose proof (omap_length_le (entry_table sep) d).
  destruct d as [|kv d]; [simpl; lia|].
  destruct (dict_of_items _); simpl length in *; lia.
Qed.

(** C3. Sheet names: for every value, root name, separator and layout (with
    fewer than 10^30 - 2 entries at the top level, so that the counter of
    the name search has at most 30 digits), [build_frames] returns, every
    sheet name has at most 31 characters, is non-empty and holds no
    forbidden character, the names are pairwise distinct, and every planned
    table is there under its own name. *)
Theorem sheet_name_invariant (obj : pyval) (root_name sep : pystr)
    (vertical : bool) :
  top_level_entries obj + 2 < 10 ^ 30 →
  ∃ tables,
    build_frames obj root_name sep vertical = Some tables
    ∧ Forall valid_sheet_name (map fst tables)
    ∧ NoDup (map fst tables)
    ∧ length tables = length (export_plan obj root_name sep vertical).
Proof.
  intros Hbound. rewrite build_frames_plan.
  destruct (assign_names_spec (export_plan obj root_name sep vertical) ∅)
    as (tables & used & Hassign & Hsnd & Hnd & _ & _ & Hvalid).
  exists tables. rewrite Hassign. split; [done|]. split; [|split; [done|]].
  - apply Hvalid. rewrite size_empty.
    pose proof (export_plan_length obj root_name sep vertical). lia.
  - by rewrite <- (length_map snd tables), Hsnd, length_map.
Qed.

Lemma sheet_name_invariant_witness :
  ∃ tables,
    build_frames
      (PDict [(py "a/b", PList []); (py "a:b", PDict []); (py "x", PInt 1)])
      (py "a_b") (py ".") false = Some tables
    ∧ Forall valid_sheet_name (map fst tables)
    ∧ NoDup (map fst tables)
    ∧ length tables = 3%nat.
Proof.
  apply (sheet_name_invariant
           (PDict [(py "a/b", PList []); (py "a:b", PDict []);
                   (py "x", PInt 1)])
           (py "a_b") (py ".") false).
  reflexivity.
Defined.

(** Collision suffixing: two keys that normalise to the same 31 characters
    get names that differ by the counter suffix only, both within the
    limit. *)
Example collision_suffix_fits :
  map fst <$>
    build_frames
      (PDict [(py "abcdefghijklmnopqrstuvwxyz0123456789", PList []);
              (py "abcdefghijklmnopqrstuvwxyz01234XYZ", PDict [])])
      (py "data") (py ".") false
  = Some [py "abcdefghijklmnopqrstuvwxyz01234";
          py "abcdefghijklmnopqrstuvwxyz012_2"].
Proof. reflexivity. Qed.

(** Induction over the nesting of mappings. *)
Lemma pyval_dict_ind (P : pyval → Prop) :
  (∀ v, is_dict v = false → P v) →
  (∀ d, Forall (λ kv, P kv.2) d → P (PDict d)) →
  ∀ v, P v.
Proof.
  intros Hleaf Hdict. fix IH 1. intros v.
  destruct v as [| | | | | |d| | | |]; try (by apply Hleaf).
  apply Hdict. induction d as [|[k x] d IHd]; constructor.
  - apply IH.
  - apply IHd.
Qed.

Lemma make_sheet_name_fixes_valid name :
  valid_sheet_name name → make_sheet_name name = name.
Proof.
  intros (Hlen & Hne & Hchars). unfold make_sheet_name.
  assert (Hsafe :
    map (λ ch, if decide (ch ∈ invalid) then 95%N else ch) name = name).
  { clear Hlen Hne. induction Hchars as [|ch name Hch _ IH]; [done|].
    simpl. rewrite IH. by rewrite decide_False. }
  rewrite Hsafe. destruct name as [|ch name]; [done|].
  apply take_ge. lia.
Qed.

Lemma frame_rows_one_column (c : list pyval) :
  map (λ i, map (λ c : list pyval, default NaN (c !! i)) [c])
      (seq 0 (length c))
  = map (λ x, [x]) c.
Proof.
  induction c as [|x c IH]; [done|].
  simpl. f_equal. rewrite <- IH, <- seq_shift, map_map. reflexivity.
Qed.

Lemma DataFrame_column_rows name lst :
  DataFrame_column name lst
  = {| columns := [name]; rows := map (λ x, [x]) (column_typing lst) |}.
Proof.
  unfold DataFrame_column, frame_of_columns. f_equal.
  rewrite <- (column_typing_length lst). apply frame_rows_one_column.
Qed.






















(** End-to-end example 3 of the specification. *)
Example horizontal_items_and_name :
  build_frames
    (PDict [(py "items", PList [PInt 1; PInt 2; PInt 3]);
            (py "name", PStr (py "alice"))])
    (py "data") (py ".") false
  = Some [(py "items",
           {| columns := [py "value"];
              rows := [[PInt 1]; [PInt 2]; [PInt 3]] |});
          (py "data",
           {| columns := [py "name"];
              rows := [[PStr (py "alice")]] |})].
Proof. reflexivity. Qed.

(** End-to-end example 2 of the specification: a sequence of mappings is one
    table, a key that an element lacks gives a missing cell. *)
Example horizontal_list_of_mappings :
  build_frames
    (PList [PDict [(py "x", PInt 1)];
            PDict [(py "x", PInt 2); (py "y", PInt 3)]])
    (py "data") (py ".") false
  = Some [(py "data",
           {| columns := [py "x"; py "y"];
              rows := [[PInt 1; NaN];
                       [PInt 2; PFloat (float_of_int 3)]] |})].
Proof. reflexivity. Qed.

(** * Further properties *)

(** ** flatten_dict on nested mappings *)

Lemma dict_set_Forall {V} (P : pystr * V → Prop) k v (d : dict V) :
  P (k, v) → Forall P d → Forall P (dict_set k v d).
Proof.
  intros Hkv. induction 1 as [|[k' v'] d Hx Hd IH]; simpl.
  - by constructor.
  - destruct (decide (k' = k)) as [->|Hne]; constructor; done.
Qed.

Lemma dict_of_items_Forall {V} (P : pystr * V → Prop)
    (items : list (pystr * V)) :
  Forall P items → Forall P (dict_of_items items).
Proof.
  induction items as [|[k v] items IH] using rev_ind; [done|].
  intros [Hitems Hkv]%Forall_app. rewrite dict_of_items_snoc.
  apply dict_set_Forall; [by inversion Hkv|by apply IH].
Qed.

Lemma dict_set_NoDup {V} k (v : V) (d : dict V) :
  NoDup (map fst d) → NoDup (map fst (dict_set k v d)).
Proof.
  intros Hnd. rewrite dict_set_keys.
  destruct (decide (k ∈ map fst d)) as [Hin|Hout]; [done|].
  apply NoDup_app. split; [done|]. split; [|apply NoDup_singleton].
  intros x Hx ->%list_elem_of_singleton. done.
Qed.

Lemma dict_of_items_NoDup {V} (items : list (pystr * V)) :
  NoDup (map fst (dict_of_items items)).
Proof.
  induction items as [|[k v] items IH] using rev_ind; [constructor|].
  rewrite dict_of_items_snoc. by apply dict_set_NoDup.
Qed.

Lemma flatten_value_flat sep v :
  ∀ parent_key,
    Forall (λ kv, is_dict kv.2 = false) (flatten_value v parent_key sep).
Proof.
  induction v as [v Hv|d IH] using pyval_dict_ind; intros parent_key.
  - destruct v; try done; constructor.
  - change (flatten_value (PDict d) parent_key sep)
      with (flatten_dict d parent_key sep).
    rewrite flatten_dict_unfold. apply dict_of_items_Forall.
    apply Forall_concat, Forall_fmap.
    eapply Forall_impl; [exact IH|]. intros [k x] Hx. simpl in *.
    unfold flatten_entry. simpl.
    destruct x; try (apply Forall_singleton; reflexivity). apply Hx.
Qed.

(** X1. What [flatten_dict] returns is flat: no value of it is a mapping,
    and its keys are pairwise distinct, whatever the nesting, parent key
    and separator. *)
Theorem flatten_dict_result_flat (d : dict pyval) (parent_key sep : pystr) :
  Forall (λ kv, is_dict kv.2 = false) (flatten_dict d parent_key sep)
  ∧ NoDup (map fst (flatten_dict d parent_key sep)).
Proof.
  split; [apply flatten_value_flat|].
  rewrite flatten_dict_unfold. apply dict_of_items_NoDup.
Qed.

(** X2. Flattening is idempotent: flattening the result of [flatten_dict]
    again changes nothing. *)
Theorem flatten_dict_idempotent (d : dict pyval) (parent_key sep sep' : pystr) :
  flatten_dict (flatten_dict d parent_key sep) [] sep'
  = flatten_dict d parent_key sep.
Proof.
  apply flatten_dict_flat.
  - rewrite flatten_dict_unfold. apply dict_of_items_NoDup.
  - apply flatten_value_flat.
Qed.

Lemma flatten_value_prefix sep v :
  ∀ parent_key,
    parent_key ≠ [] →
    Forall (λ kv, (parent_key ++ sep) `prefix_of` kv.1)
           (flatten_value v parent_key sep).
Proof.
  induction v as [v Hv|d IH] using pyval_dict_ind; intros parent_key Hne.
  - destruct v; try done; constructor.
  - change (flatten_value (PDict d) parent_key sep)
      with (flatten_dict d parent_key sep).
    rewrite flatten_dict_unfold. apply dict_of_items_Forall.
    apply Forall_concat, Forall_fmap.
    eapply Forall_impl; [exact IH|]. intros [k x] Hx. simpl in *.
    unfold flatten_entry. simpl.
    destruct parent_key as [|c parent_key]; [done|].
    assert (Hleaf : (((c :: parent_key) ++ sep)
                     `prefix_of` ((c :: parent_key) ++ sep ++ k))).
    { exists k. by rewrite <- app_assoc. }
    destruct x; try (apply Forall_singleton; exact Hleaf).
    eapply Forall_impl; [apply (Hx ((c :: parent_key) ++ sep ++ k)); done|].
    intros [k' x'] [rest Hrest]. simpl in *.
    exists (k ++ sep ++ rest). rewrite Hrest.
    simpl. by rewrite <- !app_assoc.
Qed.

(** X3. Under a non-empty parent key every key that [flatten_dict] produces
    begins with the parent key followed by the separator. *)
Theorem flatten_dict_keys_prefixed (d : dict pyval) (parent_key sep : pystr) :
  parent_key ≠ [] →
  Forall (λ kv, (parent_key ++ sep) `prefix_of` kv.1)
         (flatten_dict d parent_key sep).
Proof. intros Hne. by apply flatten_value_prefix. Qed.

Lemma flatten_dict_keys_prefixed_witness :
  Forall (λ kv : pystr * pyval, (py "b" ++ py ".") `prefix_of` kv.1)
         (flatten_dict [(py "c", PInt 2); (py "d", PDict [(py "e", PInt 3)])]
                       (py "b") (py ".")).
Proof.
  apply (flatten_dict_keys_prefixed
           [(py "c", PInt 2); (py "d", PDict [(py "e", PInt 3)])]
           (py "b") (py ".")).
  discriminate.
Defined.

(** ** The sheet planner on its own *)

(** X4. [make_sheet_name] leaves a name that already meets the constraints
    unchanged, and so applying it twice is the same as applying it once. *)
Theorem make_sheet_name_idempotent (name : pystr) :
  (valid_sheet_name name → make_sheet_name name = name)
  ∧ make_sheet_name (make_sheet_name name) = make_sheet_name name.
Proof.
  split; [apply make_sheet_name_fixes_valid|].
  apply make_sheet_name_fixes_valid, make_sheet_name_valid.
Qed.

Lemma make_sheet_name_idempotent_witness :
  make_sheet_name (py "data") = py "data".
Proof.
  apply (proj1 (make_sheet_name_idempotent (py "data"))).
  split; [simpl; lia|]. split; [discriminate|by_evaluation].
Defined.

(** X5. A name that meets the constraints and is not in use is handed out
    as it is, and is registered. *)
Theorem uniq_sheet_name_keeps_free_name (base : pystr) (used : gset pystr) :
  valid_sheet_name base → base ∉ used →
  uniq_sheet_name base used = Some (base, {[base]} ∪ used).
Proof.
  intros Hvalid Hfree. unfold uniq_sheet_name.
  rewrite make_sheet_name_fixes_valid by done.
  by rewrite decide_False.
Qed.

Lemma uniq_sheet_name_keeps_free_name_witness :
  uniq_sheet_name (py "items") {[py "data"]}
  = Some (py "items", {[py "items"]} ∪ {[py "data"]}).
Proof.
  apply (uniq_sheet_name_keeps_free_name (py "items") {[py "data"]}).
  - split; [simpl; lia|]. split; [discriminate|by_evaluation].
  - intros H%elem_of_singleton. discriminate H.
Defined.

Lemma uniq_loop_first_free fuel name used i c :
  uniq_loop fuel name used i = Some c →
  ∃ j, i ≤ j < i + Z.of_nat fuel
       ∧ c = candidate name j
       ∧ (c ∉ used)
       ∧ ∀ i', i ≤ i' < j → candidate name i' ∈ used.
Proof.
  revert i. induction fuel as [|fuel IH]; intros i; simpl; [done|].
  destruct (decide (candidate name i ∈ used)) as [Hin|Hout].
  - intros Hloop. destruct (IH _ Hloop) as (j & Hj & Hc & Hfresh & Hbefore).
    exists j. split; [lia|]. split; [done|]. split; [done|].
    intros i' Hi'. destruct (decide (i' = i)) as [->|Hne]; [done|].
    apply Hbefore. lia.
  - intros [= <-]. exists i. split; [lia|]. split; [done|]. split; [done|].
    intros i' Hi'. lia.
Qed.

(** X6. When the normalised name is taken, [uniq_sheet_name] hands out the
    candidate with the smallest counter, from 2 on, that is free: every
    smaller counter gives a name in use; the counter never passes the
    number of used names plus 2, and the name is registered. *)
Theorem uniq_sheet_name_first_free_suffix (base : pystr) (used : gset pystr) :
  make_sheet_name base ∈ used →
  ∃ j,
    2 ≤ j ≤ Z.of_nat (size used) + 2
    ∧ uniq_sheet_name base used
      = Some (candidate (make_sheet_name base) j,
              {[candidate (make_sheet_name base) j]} ∪ used)
    ∧ (candidate (make_sheet_name base) j ∉ used)
    ∧ ∀ i, 2 ≤ i < j → candidate (make_sheet_name base) i ∈ used.
Proof.
  intros Htaken. unfold uniq_sheet_name. rewrite decide_True by done.
  destruct (uniq_loop_total (S (size used)) (make_sheet_name base) used 2)
    as [c Hc]; [lia..|].
  rewrite Hc. simpl.
  apply uniq_loop_first_free in Hc as (j & Hj & -> & Hfresh & Hbefore).
  exists j. split; [lia|]. split; [done|]. split; [done|]. exact Hbefore.
Qed.

Lemma uniq_sheet_name_first_free_suffix_witness :
  ∃ j,
    2 ≤ j ≤ Z.of_nat (size ({[py "data"; py "data_2"]} : gset pystr)) + 2
    ∧ uniq_sheet_name (py "data") {[py "data"; py "data_2"]}
      = Some (candidate (make_sheet_name (py "data")) j,
              {[candidate (make_sheet_name (py "data")) j]}
              ∪ {[py "data"; py "data_2"]})
    ∧ (candidate (make_sheet_name (py "data")) j
       ∉ ({[py "data"; py "data_2"]} : gset pystr))
    ∧ ∀ i, 2 ≤ i < j →
           candidate (make_sheet_name (py "data")) i
           ∈ ({[py "data"; py "data_2"]} : gset pystr).
Proof.
  apply (uniq_sheet_name_first_free_suffix (py "data")
           {[py "data"; py "data_2"]}).
  apply elem_of_union_l, elem_of_singleton. reflexivity.
Defined.

(** ** The shape of the exported tables *)

Lemma assign_single_name root_name df :
  fst <$> assign_names [(root_name, df)] ∅
  = Some [(make_sheet_name root_name, df)].
Proof.
  simpl. unfold uniq_sheet_name.
  by rewrite decide_False by apply not_elem_of_empty.
Qed.



(** X8. The vertical table of a mapping whose flattening is not empty and
    holds no integer outside the signed 64-bit range has the columns Key
    and Value and one row per flattened pair, in the order of the
    flattening: the flattened key as text next to the value as the Value
    column stores it. *)
Theorem vertical_table_shape (d : dict pyval) (root_name sep : pystr) :
  flatten_dict d [] sep ≠ [] →
  Forall (λ kv, fits_int64 kv.2 = true) (flatten_dict d [] sep) →
  build_frames (PDict d) root_name sep true
  = Some [(make_sheet_name root_name,
           {| columns := [Key; Value];
              rows := zip_with (λ k v, [PStr k; v])
                        (map fst (flatten_dict d [] sep))
                        (column_typing (map snd (flatten_dict d [] sep))) |})].
Proof.
  intros Hne _. rewrite build_frames_plan. unfold export_plan.
  rewrite vertical_frame by done. apply assign_single_name.
Qed.

Lemma vertical_table_shape_witness :
  build_frames
    (PDict [(py "a", PInt 1); (py "b", PDict [(py "c", PStr (py "x"))])])
    (py "data") (py ".") true
  = Some [(py "data",
           {| columns := [Key; Value];
              rows := [[PStr (py "a"); PInt 1];
                       [PStr (py "b.c"); PStr (py "x")]] |})].
Proof.
  apply (vertical_table_shape
           [(py "a", PInt 1); (py "b", PDict [(py "c", PStr (py "x"))])]
           (py "data") (py ".")).
  - discriminate.
  - repeat constructor.
Defined.

Section TableShapes.
Variable repr_other : pyval → pystr.

(** X9. A sequence root with an element that is not a mapping and with no
    integer outside the signed 64-bit range gives, in either layout, one
    table with the single column [value] and one row per element, in
    order; a table with that single column has no Key column, so it cannot
    be imported, whatever its rows. *)
Theorem sequence_of_values_table (lst : list pyval) (root_name sep : pystr)
    (vertical : bool) :
  is_list_of_dicts (PList lst) = false →
  Forall (λ v, fits_int64 v = true) lst →
  build_frames (PList lst) root_name sep vertical
  = Some [(make_sheet_name root_name,
           {| columns := [py "value"];
              rows := map (λ x, [x]) (column_typing lst) |})]
  ∧ ∀ rows',
      read_excel_to_json repr_other
        {| columns := [py "value"]; rows := rows' |}
      = Raise ValueError_columns.
Proof.
  intros Hmixed _. split; [|reflexivity].
  rewrite build_frames_plan. unfold export_plan, normalize_list.
  rewrite Hmixed, DataFrame_column_rows. apply assign_single_name.
Qed.

(** X10. A root that is null or a scalar other than NaN, an integer within
    the signed 64-bit range if it is one, gives one vertical table, and
    every table read back from its sheet with the same labels and cells is
    imported to the one-entry mapping from ["value"] to the root. *)
Theorem scalar_root_round_trip (obj : pyval) (root_name sep : pystr) :
  json_scalar obj = true →
  fits_int64 obj = true →
  ∃ df,
    build_frames obj root_name sep true
    = Some [(make_sheet_name root_name, df)]
    ∧ ∀ df', read_back_as_written df df' →
        read_excel_to_json repr_other df' = Ok [(py "value", obj)].
Proof.
  intros Hscalar _.
  exists {| columns := [Key; Value]; rows := [[PStr (py "value"); obj]] |}.
  split.
  - rewrite build_frames_plan.
    destruct obj; try done; apply assign_single_name.
  - intros df' Hread.
    rewrite (read_vertical_rows repr_other [py "value"] [obj] df');
      [|done|apply NoDup_singleton|exact Hread].
    simpl. by rewrite coerce_cell_scalar.
Qed.

(** X11. Vertical round trip of a nested mapping: when the flattening of
    the mapping is not empty and holds nulls and scalars other than NaN
    only, no integer beyond the range of a float and no integer that the
    Value column stores as a float, and the sheet written from the
    exported table is read back with the same labels and cells, the import
    gives exactly the flattening: the flattened keys in traversal order
    with their values. *)
Theorem nested_round_trip_is_flattening
    (read_sheet : DataFrame → DataFrame) (d : dict pyval)
    (root_name sep : pystr) :
  flatten_dict d [] sep ≠ [] →
  Forall (λ kv, json_scalar kv.2 = true) (flatten_dict d [] sep) →
  Forall (λ kv, converts_to_float kv.2 = true) (flatten_dict d [] sep) →
  int_stored_as_float (map snd (flatten_dict d [] sep)) = false →
  read_back_as_written (vertical_table (flatten_dict d [] sep))
    (read_sheet (vertical_table (flatten_dict d [] sep))) →
  vertical_round_trip repr_other read_sheet root_name sep d
  = Some (Ok (flatten_dict d [] sep)).
Proof.
  intros Hne Hscalar _ Hkept Hsheet.
  pose proof (dict_of_items_NoDup
                (concat (map (flatten_entry [] sep) d))) as Hnd.
  rewrite <- flatten_dict_unfold in Hnd.
  transitivity (vertical_round_trip repr_other read_sheet root_name sep
                  (flatten_dict d [] sep)).
  - unfold vertical_round_trip, build_frames.
    rewrite (flatten_dict_flat sep (flatten_dict d [] sep));
      [done|done|apply flatten_value_flat].
  - rewrite vertical_round_trip_nonempty;
      [|done|done|by apply scalar_entries_not_dict|done].
    rewrite coerce_kept_column; [|by apply Forall_fmap|done].
    by rewrite zip_fst_snd.
Qed.

End TableShapes.

Lemma sequence_of_values_table_witness :
  build_frames (PList [PInt 1; PStr (py "x")]) (py "data") (py ".") false
  = Some [(py "data",
           {| columns := [py "value"];
              rows := [[PInt 1]; [PStr (py "x")]] |})]
  ∧ ∀ rows',
      read_excel_to_json sample_repr
        {| columns := [py "value"]; rows := rows' |}
      = Raise ValueError_columns.
Proof.
  apply (sequence_of_values_table sample_repr [PInt 1; PStr (py "x")]
           (py "data") (py ".") false).
  - reflexivity.
  - repeat constructor.
Defined.

Lemma scalar_root_round_trip_witness :
  ∃ df,
    build_frames (PStr (py "hello")) (py "data") (py ".") true
    = Some [(py "data", df)]
    ∧ ∀ df', read_back_as_written df df' →
        read_excel_to_json sample_repr df'
        = Ok [(py "value", PStr (py "hello"))].
Proof.
  apply (scalar_root_round_trip sample_repr (PStr (py "hello"))
           (py "data") (py ".")).
  - reflexivity.
  - reflexivity.
Defined.

Lemma nested_round_trip_is_flattening_witness :
  vertical_round_trip sample_repr sample_read_sheet (py "data") (py ".")
    [(py "a", PInt 1); (py "b", PDict [(py "c", PInt 2); (py "d", PInt 3)])]
  = Some (Ok [(py "a", PInt 1); (py "b.c", PInt 2); (py "b.d", PInt 3)]).
Proof.
  apply (nested_round_trip_is_flattening sample_repr sample_read_sheet
           [(py "a", PInt 1);
            (py "b", PDict [(py "c", PInt 2); (py "d", PInt 3)])]
           (py "data") (py ".")).
  - discriminate.
  - repeat constructor.
  - repeat constructor.
  - reflexivity.
  - apply sample_read_sheet_as_written.
Defined.


(** ** What the importer returns *)

Section ImportResult.
Variable repr_other : pyval → pystr.


Lemma coerce_cell_np_bool b :
  coerce_cell repr_other (NpBool b) = NpBool b.
Proof. reflexivity. Qed.


(** X15. The coercer is idempotent: a coerced value is coerced to
    itself. *)
Theorem coerce_cell_idempotent (value : pyval) :
  coerce_cell repr_other (coerce_cell repr_other value)
  = coerce_cell repr_other value.
Proof.
  unfold coerce_cell at 2 3. unfold coerce_steps.
  destruct value as [| |z|f|s|l|d|z|f|l|b]; simpl; try done.
  - destruct (is_nan f) eqn:Hf; simpl; [done|].
    unfold coerce_cell, coerce_steps. simpl. by rewrite Hf.
  - destruct l as [|x [|y l]]; simpl; try done.
    destruct (isna_truth x) as [[|]|e] eqn:Hx; simpl; try done.
    unfold coerce_cell, coerce_steps. simpl. by rewrite Hx.
  - destruct (is_nan f) eqn:Hf; simpl; [done|].
    unfold coerce_cell, coerce_steps. simpl. by rewrite Hf.
  - destruct l as [|x [|y l]]; simpl; try done.
    destruct (isna_truth x) as [[|]|e] eqn:Hx; simpl; try done.
    unfold coerce_cell, coerce_steps. simpl. by rewrite Hx.
Qed.
End ImportResult.


(** ** load_json on newline-delimited input *)

Section NdjsonResult.
Variable json_loads : pystr → loads_outcome.
Variable strip : pystr → pystr.

Lemma ndjson_loop_ok lines i records :
  Forall (line_accepted json_loads strip) lines →
  ndjson_loop json_loads strip lines i records
  = Ok (records ++ omap (parse_line json_loads strip) lines).
Proof.
  intros Hall. revert i records.
  induction Hall as [|line lines Hline _ IH]; intros i records.
  - simpl. by rewrite app_nil_r.
  - change (omap (parse_line json_loads strip) (line :: lines))
      with (match parse_line json_loads strip line with
            | Some v => v :: omap (parse_line json_loads strip) lines
            | None => omap (parse_line json_loads strip) lines
            end).
    simpl. unfold parse_line, line_accepted in *.
    destruct (strip line) as [|c s] eqn:Hstrip; [apply IH|].
    destruct Hline as [Hblank|[v Hv]]; [done|].
    rewrite Hv, IH. by rewrite <- app_assoc.
Qed.

(** X16. When every line is blank or parses, [load_json] in
    newline-delimited mode returns the sequence of the parsed values of
    the non-blank lines, in line order. *)
Theorem ndjson_load_result (lines : list pystr) :
  Forall (line_accepted json_loads strip) lines →
  load_json json_loads strip lines true
  = Ok (PList (omap (parse_line json_loads strip) lines)).
Proof.
  intros Hall. unfold load_json. by rewrite ndjson_loop_ok.
Qed.

Lemma ndjson_loop_raise lines i records e :
  ndjson_loop json_loads strip lines i records = Raise e →
  ∃ good bad rest,
    lines = good ++ bad :: rest
    ∧ Forall (line_accepted json_loads strip) good
    ∧ strip bad ≠ []
    ∧ ((json_loads (strip bad) = Decode_error
        ∧ e = ValueError_line (i + len good))
       ∨ (∃ what, json_loads (strip bad) = Other_error what
                  ∧ e = OtherError what)).
Proof.
  revert i records. induction lines as [|line lines IH]; intros i records;
    simpl; [done|].
  assert (Hnext : ∀ records',
    ndjson_loop json_loads strip lines (i + 1) records' = Raise e →
    line_accepted json_loads strip line →
    ∃ good bad rest,
      line :: lines = good ++ bad :: rest
      ∧ Forall (line_accepted json_loads strip) good
      ∧ strip bad ≠ []
      ∧ ((json_loads (strip bad) = Decode_error
          ∧ e = ValueError_line (i + len good))
         ∨ (∃ what, json_loads (strip bad) = Other_error what
                    ∧ e = OtherError what))).
  { intros records' Hloop Hline.
    destruct (IH _ _ Hloop)
      as (good & bad & rest & -> & Hgood & Hbad & Hcase).
    exists (line :: good), bad, rest. split; [done|].
    split; [by constructor|]. split; [done|].
    destruct Hcase as [[Hdec ->]|Hother]; [left|by right].
    split; [done|]. f_equal. unfold len. simpl length. lia. }
  destruct (strip line) as [|c s] eqn:Hstrip.
  - intros Hloop. apply (Hnext _ Hloop). left. done.
  - destruct (json_loads (c :: s)) as [v| |what] eqn:Hv.
    + intros Hloop. apply (Hnext _ Hloop). right. exists v.
      by rewrite Hstrip.
    + intros [= <-]. exists [], line, lines. split; [done|].
      split; [constructor|]. split; [by rewrite Hstrip|]. left.
      split; [by rewrite Hstrip|]. f_equal. unfold len. simpl. lia.
    + intros [= <-]. exists [], line, lines. split; [done|].
      split; [constructor|]. split; [by rewrite Hstrip|]. right.
      exists what. by rewrite Hstrip.
Qed.

(** X17. A failure of [load_json] in newline-delimited mode comes from the
    first line that is neither blank nor loaded: all lines before it are
    blank or loaded; if [json.loads] raised [JSONDecodeError] on it, the
    error is the line-numbered one with its 1-based position (blank lines
    counted), between 1 and the number of lines; if [json.loads] raised
    anything else, that exception goes through unchanged, without a line
    number. *)
Theorem ndjson_failure_comes_from_first_bad_line (lines : list pystr)
    (e : exn) :
  load_json json_loads strip lines true = Raise e →
  ∃ good bad rest,
    lines = good ++ bad :: rest
    ∧ Forall (line_accepted json_loads strip) good
    ∧ strip bad ≠ []
    ∧ ((json_loads (strip bad) = Decode_error
        ∧ e = ValueError_line (len good + 1))
       ∨ (∃ what, json_loads (strip bad) = Other_error what
                  ∧ e = OtherError what))
    ∧ 1 ≤ len good + 1 ≤ len lines.
Proof.
  unfold load_json.
  destruct (ndjson_loop json_loads strip lines 1 []) as [records|e'] eqn:Hloop;
    [done|].
  intros [= <-].
  apply ndjson_loop_raise in Hloop
    as (good & bad & rest & -> & Hgood & Hbad & Hcase).
  exists good, bad, rest. split; [done|]. split; [done|]. split; [done|].
  split.
  - destruct Hcase as [[Hdec ->]|Hother]; [left|by right].
    split; [done|]. by rewrite Z.add_comm.
  - unfold len. rewrite length_app. simpl length. lia.
Qed.

End NdjsonResult.

Lemma ndjson_load_result_witness :
  load_json sample_loads sample_strip [py "1"; []; py "1"] true
  = Ok (PList [PInt 1; PInt 1]).
Proof.
  apply (ndjson_load_result sample_loads sample_strip [py "1"; []; py "1"]).
  apply Forall_cons_2; [right; by exists (PInt 1)|].
  apply Forall_cons_2; [by left|].
  apply Forall_cons_2; [right; by exists (PInt 1)|apply Forall_nil_2].
Defined.

Lemma ndjson_failure_comes_from_first_bad_line_witness :
  ∃ good bad rest,
    [py "1"; py "x"; py "{"] = good ++ bad :: rest
    ∧ Forall (line_accepted sample_loads sample_strip) good
    ∧ sample_strip bad ≠ []
    ∧ ((sample_loads (sample_strip bad) = Decode_error
        ∧ OtherError (py "limit") = ValueError_line (len good + 1))
       ∨ (∃ what, sample_loads (sample_strip bad) = Other_error what
                  ∧ OtherError (py "limit") = OtherError what))
    ∧ 1 ≤ len good + 1 ≤ len [py "1"; py "x"; py "{"].
Proof.
  apply (ndjson_failure_comes_from_first_bad_line sample_loads sample_strip
           [py "1"; py "x"; py "{"] (OtherError (py "limit"))).
  reflexivity.
Defined.


(** ** Column widths *)

Lemma max_of_ge x rest :
  x ≤ max_of x rest ∧ Forall (λ y, y ≤ max_of x rest) rest.
Proof.
  unfold max_of. revert x. induction rest as [|y rest IH]; intros x; simpl.
  - split; [lia|constructor].
  - destruct (IH (Z.max x y)) as [Hx Hrest]. split; [lia|].
    constructor; [lia|done].
Qed.

(** X19. Every width that [autosize_columns_if_openpyxl] assigns is at
    least 2 and at most 60, and is wide enough for the column label and for
    the text of every cell of the column plus a padding of 2, unless that
    exceeds the cap of 60. *)
Theorem autosize_widths_bounded (repr_other : pyval → pystr)
    (openpyxl_installed sheet_found : bool) (df : DataFrame)
    (n : nat) (idx width : Z) :
  autosize_columns_if_openpyxl repr_other openpyxl_installed sheet_found df
    !! n = Some (idx, width) →
  idx = Z.of_nat n + 1
  ∧ 2 ≤ width ≤ 60
  ∧ ∃ col,
      columns df !! n = Some col
      ∧ Z.min (len col + 2) 60 ≤ width
      ∧ Forall (λ cell, Z.min (len (py_str repr_other cell) + 2) 60 ≤ width)
               (column_cells df col).
Proof.
  unfold autosize_columns_if_openpyxl.
  destruct openpyxl_installed; simpl; [|by rewrite lookup_nil].
  destruct sheet_found; simpl; [|by rewrite lookup_nil].
  rewrite list_lookup_imap.
  destruct (columns df !! n) as [col|] eqn:Hcol; simpl; [|done].
  intros [= <- <-]. split; [done|].
  assert (Hlen : 0 ≤ len col) by (unfold len; lia).
  pose proof (max_of_ge (len col)
                (map len (map (py_str repr_other) (column_cells df col))))
    as [Hmax Hcells].
  split; [destruct (frame_empty df); simpl; lia|].
  exists col. split; [done|].
  split; [destruct (frame_empty df); simpl; lia|].
  destruct (frame_empty df) eqn:Hempty; simpl.
  - assert (Hrows : rows df = []).
    { unfold frame_empty in Hempty.
      destruct (columns df) as [|c cs]; [by rewrite lookup_nil in Hcol|].
      by destruct (rows df). }
    unfold column_cells. rewrite Hrows. constructor.
  - rewrite Forall_forall in Hcells. apply Forall_forall. intros cell Hin.
    assert (Hcell : len (py_str repr_other cell)
                    ≤ max_of (len col)
                        (map len (map (py_str repr_other)
                                      (column_cells df col)))).
    { apply Hcells, list_elem_of_fmap. exists (py_str repr_other cell).
      split; [done|]. apply list_elem_of_fmap. by exists cell. }
    lia.
Qed.

Lemma autosize_widths_bounded_witness :
  (2 : Z) = Z.of_nat 1 + 1
  ∧ 2 ≤ 7 ≤ 60
  ∧ ∃ col,
      [Key; Value] !! 1%nat = Some col
      ∧ Z.min (len col + 2) 60 ≤ 7
      ∧ Forall (λ cell, Z.min (len (py_str sample_repr cell) + 2) 60 ≤ 7)
               (column_cells
                  {| columns := [Key; Value];
                     rows := [[PStr (py "a"); PInt 1];
                              [PStr (py "bb"); PInt 22]] |} col).
Proof.
  apply (autosize_widths_bounded sample_repr true true
           {| columns := [Key; Value];
              rows := [[PStr (py "a"); PInt 1]; [PStr (py "bb"); PInt 22]] |}
           1%nat 2 7).
  reflexivity.
Defined.
